(** * TinyEKF (Python): the filter recursion and its linear-algebra wrappers

    A shallow embedding of [python/tinyekf/__init__.py]: the classes
    [_Matrix], [_Vector] and [EKF], together with the part of NumPy they
    call.

    Conventions.
    - Python floats are kept abstract: the development is parametric in a
      scalar type [T] with a zero, a one, and the three operations the
      program applies to array elements ([Scalar]).  Two instances are
      given: exact rationals, and the binary64 floats of the program.
    - A NumPy array is a two-dimensional array of floats (dtype
      float64): its shape and its rows.  An attribute [data] holds
      either [None] or such an array.
    - [np.linalg.inv] is external to the repository; it is a parameter
      ([LinAlg]): [None] stands for the call raising [LinAlgError].
    - Python exceptions are values of [exn]; a computation returns
      [Ret v] or [Raise e].  Code that changes the object it runs on, or
      that prints, threads its state explicitly ([M]). *)

From Stdlib Require Import List ZArith Lia Bool Arith QArith Qround Lqa.
From Stdlib Require PrimFloat.
Import ListNotations.
Close Scope Q_scope.

Set Implicit Arguments.

(** ** Scalars, exceptions, results *)

Class Scalar (T : Type) : Type := {
  szero : T;
  sone : T;
  sadd : T -> T -> T;
  ssub : T -> T -> T;
  smul : T -> T -> T
}.

Inductive exn : Type :=
| ValueError
| TypeError
| IndexError
| AttributeError
| LinAlgError
| NotImplementedError
| SystemExit (code : Z).

Inductive result (A : Type) : Type :=
| Ret (a : A)
| Raise (e : exn).

Arguments Ret {A} a.
Arguments Raise {A} e.

Definition rbind {A B : Type} (r : result A) (k : A -> result B) : result B :=
  match r with
  | Ret a => k a
  | Raise e => Raise e
  end.

Declare Scope py_scope.
Delimit Scope py_scope with py.
Notation "'let*' x ':=' r 'in' k" := (rbind r (fun x => k))
  (at level 10, x name, r at level 100, k at level 200) : py_scope.
Open Scope py_scope.

(** ** NumPy: the array operations the program calls *)

Module np.
Section Arrays.
Context {T : Type} {ST : Scalar T}.

Record ndarray : Type := mk_nd {
  nrows : nat;
  ncols : nat;
  rows : list (list T)
}.

Definition shape (a : ndarray) : nat * nat := (nrows a, ncols a).

(** Element [a[i, j]] for in-range [i], [j]. *)
Definition get (a : ndarray) (i j : nat) : T :=
  nth j (nth i (rows a) []) szero.

(** The [r]x[c] array whose element [(i, j)] is [g i j]. *)
Definition tab (r c : nat) (g : nat -> nat -> T) : ndarray :=
  mk_nd r c (map (fun i => map (g i) (seq 0 c)) (seq 0 r)).

(** [np.zeros((r, c))] *)
Definition zeros (r c : nat) : ndarray :=
  tab r c (fun _ _ => szero).

(** [np.eye(n, m)]: a negative dimension raises [ValueError]. *)
Definition eye (n m : Z) : result ndarray :=
  if ((n <? 0) || (m <? 0))%Z then Raise ValueError
  else Ret (tab (Z.to_nat n) (Z.to_nat m)
                (fun i j => if Nat.eqb i j then sone else szero)).

(** [np.copy(a)]: a fresh array with the contents of [a]. *)
Definition copy (a : ndarray) : ndarray := a.

(** [a.T] *)
Definition transpose (a : ndarray) : ndarray :=
  tab (ncols a) (nrows a) (fun i j => get a j i).

(** The matrix product, defined whatever the shapes: row [i] of [a]
    against column [j] of [b], over the columns of [a]. *)
Definition matmul (a b : ndarray) : ndarray :=
  tab (nrows a) (ncols b)
      (fun i j =>
         fold_left sadd
                   (map (fun k => smul (get a i k) (get b k j)) (seq 0 (ncols a)))
                   szero).

(** Elementwise combination of two arrays of the shape of [a]. *)
Definition zip (op : T -> T -> T) (a b : ndarray) : ndarray :=
  tab (nrows a) (ncols a) (fun i j => op (get a i j) (get b i j)).

(** [a *= s] on a copy: every element times [s]. *)
Definition scale (a : ndarray) (s : T) : ndarray :=
  tab (nrows a) (ncols a) (fun i j => smul (get a i j) s).

(** Broadcasting of one axis: equal lengths, or one of them is 1. *)
Definition bdim (d1 d2 : nat) : option nat :=
  if Nat.eqb d1 d2 then Some d1
  else if Nat.eqb d1 1 then Some d2
  else if Nat.eqb d2 1 then Some d1
  else None.

(** The index read along an axis of length [d] that is being broadcast. *)
Definition bidx (d i : nat) : nat := if Nat.eqb d 1 then 0 else i.

(** [a + b], [a - b] between arrays: NumPy broadcasts the two shapes, and
    raises [ValueError] when they cannot be broadcast together. *)
Definition broadcast (op : T -> T -> T) (a b : ndarray) : result ndarray :=
  match bdim (nrows a) (nrows b), bdim (ncols a) (ncols b) with
  | Some r, Some c =>
      Ret (tab r c (fun i j =>
                      op (get a (bidx (nrows a) i) (bidx (ncols a) j))
                         (get b (bidx (nrows b) i) (bidx (ncols b) j))))
  | _, _ => Raise ValueError
  end.

(** The value of an attribute [data]: [None] or an array. *)
Definition pydata : Type := option ndarray.

Definition shape_of (d : pydata) : option (nat * nat) := option_map shape d.

(** The column vector of the elements of [t]. *)
Definition column (t : list T) : ndarray :=
  tab (length t) 1 (fun i _ => nth i t szero).

(** The elements of the first column, top to bottom. *)
Definition flat (a : ndarray) : list T :=
  map (fun i => get a i 0) (seq 0 (nrows a)).

(** An array without elements. *)
Definition is_empty (a : ndarray) : bool :=
  Nat.eqb (nrows a) 0 || Nat.eqb (ncols a) 0.

(** [None] against an array: NumPy applies the operation element by
    element with [None], which raises [TypeError] at the first element;
    an array without elements gives an array of its shape, without
    elements. *)
Definition with_none (a : ndarray) : result ndarray :=
  if is_empty a then Ret (zeros (nrows a) (ncols a)) else Raise TypeError.

(** [x + y] and [x - y] on the values of two [data] attributes. *)
Definition binop (op : T -> T -> T) (x y : pydata) : result ndarray :=
  match x, y with
  | Some a, Some b => broadcast op a b
  | Some a, None => with_none a
  | None, Some b => with_none b
  | None, None => Raise TypeError
  end.

(** [np.dot(x, y)]: the inner dimensions must agree; with [None] for an
    operand it is the element by element product. *)
Definition dot (x y : pydata) : result ndarray :=
  match x, y with
  | Some a, Some b =>
      if Nat.eqb (ncols a) (nrows b) then Ret (matmul a b)
      else Raise ValueError
  | Some a, None => with_none a
  | None, Some b => with_none b
  | None, None => Raise TypeError
  end.

(** An index into an axis of length [len]: NumPy counts a negative index
    from the end, and raises [IndexError] outside [-len, len). *)
Definition norm_index (len : nat) (i : Z) : result nat :=
  if ((- Z.of_nat len <=? i) && (i <? Z.of_nat len))%Z
  then Ret (Z.to_nat (if (i <? 0)%Z then i + Z.of_nat len else i)%Z)
  else Raise IndexError.

(** A subscript: [a[i]] or [a[i, j]]. *)
Inductive key : Type :=
| KInt (i : Z)
| KPair (i j : Z).

(** What a subscript reads: a scalar for a pair, a row for one integer. *)
Inductive item : Type :=
| IScalar (t : T)
| IRow (l : list T).

(** [a[key]] *)
Definition getitem (a : ndarray) (k : key) : result item :=
  match k with
  | KInt i =>
      let* i' := norm_index (nrows a) i in
      Ret (IRow (map (get a i') (seq 0 (ncols a))))
  | KPair i j =>
      let* i' := norm_index (nrows a) i in
      let* j' := norm_index (ncols a) j in
      Ret (IScalar (get a i' j'))
  end.

(** [a[key] = v] for a scalar [v]: one integer assigns the whole row. *)
Definition setitem (a : ndarray) (k : key) (v : T) : result ndarray :=
  match k with
  | KInt i =>
      let* i' := norm_index (nrows a) i in
      Ret (tab (nrows a) (ncols a)
               (fun p q => if Nat.eqb p i' then v else get a p q))
  | KPair i j =>
      let* i' := norm_index (nrows a) i in
      let* j' := norm_index (ncols a) j in
      Ret (tab (nrows a) (ncols a)
               (fun p q => if Nat.eqb p i' && Nat.eqb q j' then v else get a p q))
  end.

(** [a[:, 0]]: the first column as a flat sequence. *)
Definition column0 (a : ndarray) : result (list T) :=
  let* _ := norm_index (ncols a) 0 in
  Ret (flat a).

(** [a] is the [r]x[c] array with ones on the main diagonal and zeros
    elsewhere. *)
Definition is_eye (r c : nat) (a : ndarray) : Prop :=
  shape a = (r, c) /\
  forall i j, i < r -> j < c ->
    get a i j = if Nat.eqb i j then sone else szero.

(** [a] is [s] times the [r]x[c] identity: the elements of [np.eye]
    multiplied by [s], each on its right. *)
Definition is_scaled_eye (r c : nat) (s : T) (a : ndarray) : Prop :=
  shape a = (r, c) /\
  forall i j, i < r -> j < c ->
    get a i j = smul (if Nat.eqb i j then sone else szero) s.

(** [a] is the zero column vector of length [n]. *)
Definition is_zero_vector (n : nat) (a : ndarray) : Prop :=
  shape a = (n, 1) /\ flat a = repeat szero n.

(** The indices NumPy accepts for an axis of length [len]. *)
Definition in_range (len : nat) (i : Z) : bool :=
  ((- Z.of_nat len <=? i) && (i <? Z.of_nat len))%Z.

Definition key_in_range (a : ndarray) (k : key) : bool :=
  match k with
  | KInt i => in_range (nrows a) i
  | KPair i j => in_range (nrows a) i && in_range (ncols a) j
  end.

(** The rows of [a] agree with its shape, as those of every NumPy array
    do. *)
Definition wf (a : ndarray) : Prop :=
  length (rows a) = nrows a /\
  Forall (fun r => length r = ncols a) (rows a).

(** The position an accepted index stands for. *)
Definition position (len : nat) (i : Z) : nat :=
  Z.to_nat (if (i <? 0)%Z then i + Z.of_nat len else i)%Z.

End Arrays.

Arguments ndarray T : clear implicits.
Arguments pydata T : clear implicits.
Arguments item T : clear implicits.

(** [np.linalg.inv]: [None] when the call raises; an inverse has the
    shape of its argument. *)
Class LinAlg (T : Type) : Type := {
  linalg_inv : ndarray T -> option (ndarray T);
  linalg_inv_shape :
    forall a b, linalg_inv a = Some b -> shape b = shape a
}.

End np.

(** ** Calls and output: what a run leaves behind besides its result *)

Inductive method : Type := m_f | m_getF | m_h | m_getH.

Inductive event (T : Type) : Type :=
| Call (name : method) (arg : np.pydata T)
| PrintData (d : np.pydata T)
| PrintExn (e : exn).

Arguments Call {T} name arg.
Arguments PrintData {T} d.
Arguments PrintExn {T} e.

(** A computation over a state [S]: its result and the state it leaves,
    which an exception does not roll back. *)
Definition M (S A : Type) : Type := S -> result A * S.

Definition mret {S A : Type} (a : A) : M S A := fun s => (Ret a, s).

Definition mbind {S A B : Type} (c : M S A) (k : A -> M S B) : M S B :=
  fun s =>
    match c s with
    | (Ret a, s') => k a s'
    | (Raise e, s') => (Raise e, s')
    end.

Definition lift {S A : Type} (r : result A) : M S A := fun s => (r, s).

Notation "x <- c ;; k" := (mbind c (fun x => k))
  (at level 61, c at next level, right associativity) : py_scope.
Notation "c ;;; k" := (mbind c (fun _ => k))
  (at level 61, right associativity) : py_scope.

(** ** class _Matrix *)

Record _Matrix (T : Type) : Type := { data : np.pydata T }.

Arguments data {T} _.

(** The matrix object holding the array [a]. *)
Definition mat {T : Type} (a : np.ndarray T) : _Matrix T := {| data := Some a |}.

(** The array of a matrix object (an empty one if [data] is [None]). *)
Definition arr {T : Type} (A : _Matrix T) : np.ndarray T :=
  match data A with
  | Some a => a
  | None => np.mk_nd 0 0 []
  end.

Module _Matrix.
Section Methods.
Context {T : Type} {ST : Scalar T} {LA : np.LinAlg T}.

(** The right operand of [*]: a Python [float] or [int], or a matrix.
    The arrays are float arrays, on which the product in place by a
    number does not fail. *)
Inductive operand : Type :=
| Num (s : T)
| Mat (o : _Matrix T).

Definition __init__ (r c : Z) : _Matrix T :=
  {| data := if ((0 <? r) && (0 <? c))%Z
             then Some (np.zeros (Z.to_nat r) (Z.to_nat c))
             else None |}.

Definition __mul__ (self : _Matrix T) (other : operand) : result (_Matrix T) :=
  match other with
  | Num s =>
      match data self with
      | Some a => Ret {| data := Some (np.scale (np.copy a) s) |}
      | None => Raise TypeError
      end
  | Mat o =>
      let* d := np.dot (data self) (data o) in
      Ret {| data := Some d |}
  end.

Definition __add__ (self other : _Matrix T) : result (_Matrix T) :=
  let* d := np.binop sadd (data self) (data other) in
  Ret {| data := Some d |}.

Definition __sub__ (self other : _Matrix T) : result (_Matrix T) :=
  let* d := np.binop ssub (data self) (data other) in
  Ret {| data := Some d |}.

Definition __setitem__ (self : _Matrix T) (k : np.key) (value : T)
  : result (_Matrix T) :=
  match data self with
  | Some a => let* a' := np.setitem a k value in Ret {| data := Some a' |}
  | None => Raise TypeError
  end.

Definition __getitem__ (self : _Matrix T) (k : np.key) : result (np.item T) :=
  match data self with
  | Some a => np.getitem a k
  | None => Raise TypeError
  end.

Definition asarray (self : _Matrix T) : result (list T) :=
  match data self with
  | Some a => np.column0 a
  | None => Raise TypeError
  end.

(** [np.copy(None)] is a zero-dimensional array holding [None]; it is
    kept as [None] here. *)
Definition copy (self : _Matrix T) : _Matrix T :=
  {| data := option_map np.copy (data self) |}.

Definition transpose (self : _Matrix T) : result (_Matrix T) :=
  match data self with
  | Some a => Ret {| data := Some (np.transpose a) |}
  | None => Raise AttributeError
  end.

(** [invert]: any exception of [np.linalg.inv] is caught; the matrix and
    the exception are printed and [exit(0)] is called. *)
Definition invert (self : _Matrix T) : M (list (event T)) (_Matrix T) :=
  fun out =>
    match match data self with
          | Some a => np.linalg_inv a
          | None => None
          end with
    | Some b => (Ret {| data := Some b |}, out)
    | None =>
        (Raise (SystemExit 0),
         out ++ [PrintData (data self); PrintExn LinAlgError])
    end.

(** [eye(n, m=0)]: [m] is [None] when the argument is omitted. *)
Definition eye (n : Z) (m : option Z) : result (_Matrix T) :=
  let m := match m with Some m => m | None => 0%Z end in
  let m := if (m =? 0)%Z then n else m in
  let* d := np.eye n m in
  Ret {| data := Some d |}.

Definition fromData (d : np.pydata T) : _Matrix T := {| data := d |}.

End Methods.
End _Matrix.

(** ** class _Vector(_Matrix) *)

Module _Vector.
Section Methods.
Context {T : Type} {ST : Scalar T}.

Definition __init__ (n : Z) : _Matrix T :=
  {| data := if (0 <? n)%Z then Some (np.zeros (Z.to_nat n) 1) else None |}.

(** The loop [for k in range(len(t)): v[k] = t[k]], from index [k] on. *)
Fixpoint fill (v : _Matrix T) (k : nat) (t : list T) : result (_Matrix T) :=
  match t with
  | [] => Ret v
  | tk :: t' =>
      let* v' := _Matrix.__setitem__ v (np.KInt (Z.of_nat k)) tk in
      fill v' (S k) t'
  end.

Definition fromTuple (t : list T) : result (_Matrix T) :=
  fill (__init__ (Z.of_nat (length t))) 0 t.

Definition fromData (d : np.pydata T) : _Matrix T := {| data := d |}.

End Methods.
End _Vector.

(** ** class EKF *)

(** Which interpreter runs the module.  The class body sets
    [__metaclass__ = ABCMeta]: Python 2 reads that attribute and refuses
    to instantiate a class that leaves an [@abstractmethod] undefined;
    Python 3 ignores it (there a metaclass is given in the class header). *)
Inductive python : Type := Python2 | Python3.

Module EKF.
Section Filter.
Context {T : Type} {ST : Scalar T} {LA : np.LinAlg T}.

(** An implementing class: for each of the four abstract methods, its
    definition if the class gives one.  [f] and [h] are called on
    [self.x.data], [getF] and [getH] on [self.x]. *)
Record subclass : Type := {
  f : option (np.pydata T -> np.pydata T);
  getF : option (_Matrix T -> np.pydata T);
  h : option (np.pydata T -> np.pydata T);
  getH : option (_Matrix T -> np.pydata T)
}.

(** The attributes of an instance.  [P_pre] is [None] until the first
    step. *)
Record t : Type := {
  P_pre : option (_Matrix T);
  x : _Matrix T;
  P_post : _Matrix T;
  F : _Matrix T;
  H : _Matrix T;
  Q : _Matrix T;
  R : _Matrix T;
  I : _Matrix T
}.

Definition log : Type := list (event T).

(** A method call [self.name(arg)]: the class's definition, or the body
    of the abstract method, which raises [NotImplementedError]. *)
Definition call {A : Type} (name : method) (impl : option (A -> np.pydata T))
  (arg : A) (view : A -> np.pydata T) : M log (np.pydata T) :=
  fun out =>
    (match impl with
     | Some g => Ret (g arg)
     | None => Raise NotImplementedError
     end,
     out ++ [Call name (view arg)]).

Variable cls : subclass.

Definition __init__ (n m : Z) (pval qval rval : T) : M log t :=
  let x0 := _Vector.__init__ n in
  e <- lift (_Matrix.eye n None) ;;
  P0 <- lift (_Matrix.__mul__ e (_Matrix.Num pval)) ;;
  dF <- call m_getF (getF cls) x0 data ;;
  dH <- call m_getH (getH cls) x0 data ;;
  e <- lift (_Matrix.eye n None) ;;
  Q0 <- lift (_Matrix.__mul__ e (_Matrix.Num qval)) ;;
  e <- lift (_Matrix.eye m None) ;;
  R0 <- lift (_Matrix.__mul__ e (_Matrix.Num rval)) ;;
  I0 <- lift (_Matrix.eye n None) ;;
  mret {| P_pre := None;
          x := x0;
          P_post := P0;
          F := _Matrix.fromData dF;
          H := _Matrix.fromData dH;
          Q := Q0;
          R := R0;
          I := I0 |}.

(** Some abstract method is left undefined. *)
Definition is_abstract : bool :=
  match f cls, getF cls, h cls, getH cls with
  | Some _, Some _, Some _, Some _ => false
  | _, _, _, _ => true
  end.

(** [cls(n, m, pval, qval, rval)] *)
Definition new (py : python) (n m : Z) (pval qval rval : T) : M log t :=
  match py with
  | Python2 => if is_abstract then lift (Raise TypeError)
               else __init__ n m pval qval rval
  | Python3 => __init__ n m pval qval rval
  end.

(** The state a method of an instance runs on: the instance and the log. *)
Definition state : Type := (t * log)%type.

Definition self : M state t := fun s => (Ret (fst s), s).

Definition on_log {A : Type} (c : M log A) : M state A :=
  fun s => let (r, out) := c (snd s) in (r, (fst s, out)).

Definition set_x (v : _Matrix T) : M state unit :=
  fun s =>
    let o := fst s in
    (Ret tt,
     ({| P_pre := P_pre o; x := v; P_post := P_post o; F := F o; H := H o;
         Q := Q o; R := R o; I := I o |}, snd s)).

Definition set_P_pre (v : _Matrix T) : M state unit :=
  fun s =>
    let o := fst s in
    (Ret tt,
     ({| P_pre := Some v; x := x o; P_post := P_post o; F := F o; H := H o;
         Q := Q o; R := R o; I := I o |}, snd s)).

Definition set_P_post (v : _Matrix T) : M state unit :=
  fun s =>
    let o := fst s in
    (Ret tt,
     ({| P_pre := P_pre o; x := x o; P_post := v; F := F o; H := H o;
         Q := Q o; R := R o; I := I o |}, snd s)).

(** Reading [self.P_pre] as a matrix: [None] has no [data]. *)
Definition get_P_pre : M state (_Matrix T) :=
  fun s =>
    match P_pre (fst s) with
    | Some p => (Ret p, s)
    | None => (Raise AttributeError, s)
    end.

Definition step (z : list T) : M state (list T) :=
  (* self.x = _Vector.fromData(self.f(self.x.data)) *)
  o <- self ;;
  fx <- on_log (call m_f (f cls) (data (x o)) (fun d => d)) ;;
  set_x (_Vector.fromData fx) ;;;
  (* self.P_pre = self.F * self.P_post * self.F.transpose() + self.Q *)
  o <- self ;;
  FP <- lift (_Matrix.__mul__ (F o) (_Matrix.Mat (P_post o))) ;;
  Ft <- lift (_Matrix.transpose (F o)) ;;
  FPFt <- lift (_Matrix.__mul__ FP (_Matrix.Mat Ft)) ;;
  P1 <- lift (_Matrix.__add__ FPFt (Q o)) ;;
  set_P_pre P1 ;;;
  (* self.P_post = self.P_pre.copy() *)
  P1 <- get_P_pre ;;
  set_P_post (_Matrix.copy P1) ;;;
  (* G = self.P_pre * self.H.transpose()
         * (self.H * self.P_pre * self.H.transpose() + self.R).invert() *)
  o <- self ;;
  P1 <- get_P_pre ;;
  Ht <- lift (_Matrix.transpose (H o)) ;;
  PHt <- lift (_Matrix.__mul__ P1 (_Matrix.Mat Ht)) ;;
  HP <- lift (_Matrix.__mul__ (H o) (_Matrix.Mat P1)) ;;
  Ht <- lift (_Matrix.transpose (H o)) ;;
  HPHt <- lift (_Matrix.__mul__ HP (_Matrix.Mat Ht)) ;;
  S <- lift (_Matrix.__add__ HPHt (R o)) ;;
  Sinv <- on_log (_Matrix.invert S) ;;
  G <- lift (_Matrix.__mul__ PHt (_Matrix.Mat Sinv)) ;;
  (* self.x += G * (_Vector.fromTuple(z) - _Vector.fromData(self.h(self.x.data))) *)
  o <- self ;;
  zv <- lift (_Vector.fromTuple z) ;;
  hx <- on_log (call m_h (h cls) (data (x o)) (fun d => d)) ;;
  d <- lift (_Matrix.__sub__ zv (_Vector.fromData hx)) ;;
  Gd <- lift (_Matrix.__mul__ G (_Matrix.Mat d)) ;;
  x1 <- lift (_Matrix.__add__ (x o) Gd) ;;
  set_x x1 ;;;
  (* self.P_post = (self.I - G * self.H) * self.P_pre *)
  o <- self ;;
  GH <- lift (_Matrix.__mul__ G (_Matrix.Mat (H o))) ;;
  IGH <- lift (_Matrix.__sub__ (I o) GH) ;;
  P1 <- get_P_pre ;;
  P2 <- lift (_Matrix.__mul__ IGH (_Matrix.Mat P1)) ;;
  set_P_post P2 ;;;
  (* return self.x.asarray() *)
  o <- self ;;
  lift (_Matrix.asarray (x o)).

(** Every state that successful steps lead to from [s0]. *)
Inductive reachable (s0 : state) : state -> Prop :=
| reach_init : reachable s0 s0
| reach_step : forall s z v s',
    reachable s0 s -> step z s = (Ret v, s') -> reachable s0 s'.

(** Every state that calls of [step] lead to from [s0], whether they
    return or raise: a caller may catch the exception and go on with
    the instance as the call left it. *)
Inductive visited (s0 : state) : state -> Prop :=
| visit_init : visited s0 s0
| visit_step : forall s z r s',
    visited s0 s -> step z s = (r, s') -> visited s0 s'.

(** [k] steps on the same measurement; [None] once a step fails. *)
Fixpoint steps (k : nat) (z : list T) (s : state) : option state :=
  match k with
  | O => Some s
  | S k' =>
      match steps k' z s with
      | Some s1 =>
          match step z s1 with
          | (Ret _, s2) => Some s2
          | (Raise _, _) => None
          end
      | None => None
      end
  end.

(** *** The shapes of a filter of dimensions [n], [m] *)

Definition shaped (n m : nat) (o : t) : Prop :=
  np.shape_of (data (x o)) = Some (n, 1) /\
  np.shape_of (data (P_post o)) = Some (n, n) /\
  np.shape_of (data (F o)) = Some (n, n) /\
  np.shape_of (data (H o)) = Some (m, n) /\
  np.shape_of (data (Q o)) = Some (n, n) /\
  np.shape_of (data (R o)) = Some (m, m) /\
  np.shape_of (data (I o)) = Some (n, n).

(** The contract of the four methods: all defined, and returning arrays
    of the shapes the filter expects. *)
Definition model_shaped (n m : nat) : Prop :=
  (exists g, f cls = Some g /\
     forall d, np.shape_of d = Some (n, 1) -> np.shape_of (g d) = Some (n, 1)) /\
  (exists g, getF cls = Some g /\
     forall v, np.shape_of (data v) = Some (n, 1) -> np.shape_of (g v) = Some (n, n)) /\
  (exists g, h cls = Some g /\
     forall d, np.shape_of d = Some (n, 1) -> np.shape_of (g d) = Some (m, 1)) /\
  (exists g, getH cls = Some g /\
     forall v, np.shape_of (data v) = Some (n, 1) -> np.shape_of (g v) = Some (m, n)).

(** *** The equations of one step, on arrays *)

(** [F P Ft + Q] *)
Definition predict_cov (aF aP aQ : np.ndarray T) : np.ndarray T :=
  np.zip sadd (np.matmul (np.matmul aF aP) (np.transpose aF)) aQ.

(** [H P Ht + R] *)
Definition innovation_cov (aH aP aR : np.ndarray T) : np.ndarray T :=
  np.zip sadd (np.matmul (np.matmul aH aP) (np.transpose aH)) aR.

(** [P Ht Sinv] *)
Definition gain (aP aH aSinv : np.ndarray T) : np.ndarray T :=
  np.matmul (np.matmul aP (np.transpose aH)) aSinv.

(** [x + G (z - hx)] *)
Definition update_state (ax aG : np.ndarray T) (z : list T) (ahx : np.ndarray T)
  : np.ndarray T :=
  np.zip sadd ax (np.matmul aG (np.zip ssub (np.column z) ahx)).

(** [(I - G H) P] *)
Definition update_cov (aI aG aH aP : np.ndarray T) : np.ndarray T :=
  np.matmul (np.zip ssub aI (np.matmul aG aH)) aP.

(** The instance once the predict phase of a step has run: [x] is
    [fx], and [P_pre] and [P_post] both hold [F P_post Ft + Q]. *)
Definition predicted (o : t) (fx : np.pydata T) : t :=
  let P1 := mat (predict_cov (arr (F o)) (arr (P_post o)) (arr (Q o))) in
  {| P_pre := Some P1; x := _Vector.fromData fx; P_post := P1;
     F := F o; H := H o; Q := Q o; R := R o; I := I o |}.

(** What a step may add to the log: calls of [f] and [h], and output. *)
Definition step_event (e : event T) : bool :=
  match e with
  | Call m_f _ | Call m_h _ => true
  | Call _ _ => false
  | PrintData _ | PrintExn _ => true
  end.

(** [s'] differs from [s] at most in [x], [P_pre] and [P_post], and in
    a log extended by events of a step. *)
Definition framed (s s' : state) : Prop :=
  F (fst s') = F (fst s) /\ H (fst s') = H (fst s) /\
  Q (fst s') = Q (fst s) /\ R (fst s') = R (fst s) /\
  I (fst s') = I (fst s) /\
  exists l, snd s' = snd s ++ l /\ forallb step_event l = true.

(** A computation that keeps the frame, whatever its result. *)
Definition keeps {A : Type} (c : M state A) : Prop :=
  forall s, framed s (snd (c s)).

End Filter.
End EKF.

Arguments EKF.subclass T : clear implicits.
Arguments EKF.t T : clear implicits.
Arguments EKF.log T : clear implicits.
Arguments EKF.state T : clear implicits.

(** ** Exact rationals as scalars, with an exact inverse *)

#[export] Instance Scalar_Q : Scalar Q := {
  szero := 0%Q;
  sone := 1%Q;
  sadd := Qplus;
  ssub := Qminus;
  smul := Qmult
}.

Module GaussJordan.

(** The first row of [rs] whose entry in column [col] is not zero, and
    the other rows in their order. *)
Fixpoint find_pivot (col : nat) (rs : list (list Q))
  : option (list Q * list (list Q)) :=
  match rs with
  | [] => None
  | r :: rs' =>
      if Qeq_bool (nth col r 0%Q) 0%Q
      then match find_pivot col rs' with
           | Some (p, rest) => Some (p, r :: rest)
           | None => None
           end
      else Some (r, rs')
  end.

(** [r - k * p], entry by entry. *)
Fixpoint row_sub (k : Q) (r p : list Q) : list Q :=
  match r, p with
  | a :: r', b :: p' => Qred (a - k * b) :: row_sub k r' p'
  | _, _ => []
  end.

(** Elimination on the columns [col], [col + 1], ... ([left] of them):
    [done] are the rows already given a pivot, in the order of their
    columns. *)
Fixpoint eliminate (left col : nat) (done todo : list (list Q))
  : option (list (list Q)) :=
  match left with
  | O => Some done
  | S left' =>
      match find_pivot col todo with
      | None => None
      | Some (p, rest) =>
          let p' := map (fun a => Qred (/ nth col p 0%Q * a)) p in
          let clear r := row_sub (nth col r 0%Q) r p' in
          eliminate left' (S col) (map clear done ++ [p']) (map clear rest)
      end
  end.

(** The inverse of a square array, or [None] for a singular or a
    non-square one. *)
Definition inv (a : np.ndarray Q) : option (np.ndarray Q) :=
  let n := np.nrows a in
  if Nat.eqb n (np.ncols a) then
    let unit i := map (fun j => if Nat.eqb i j then 1%Q else 0%Q) (seq 0 n) in
    let aug := map (fun i => map (np.get a i) (seq 0 n) ++ unit i) (seq 0 n) in
    match eliminate n 0 [] aug with
    | Some rs => Some (np.mk_nd n n (map (skipn n) rs))
    | None => None
    end
  else None.

Lemma inv_shape (a b : np.ndarray Q) :
  inv a = Some b -> np.shape b = np.shape a.
Proof.
  unfold inv, np.shape.
  destruct (Nat.eqb (np.nrows a) (np.ncols a)) eqn:E; [|discriminate].
  apply Nat.eqb_eq in E.
  destruct (eliminate _ _ _ _); [|discriminate].
  intros [= <-]; simpl. now rewrite <- E.
Qed.

End GaussJordan.

#[export] Instance LinAlg_Q : np.LinAlg Q := {
  np.linalg_inv := GaussJordan.inv;
  np.linalg_inv_shape := GaussJordan.inv_shape
}.

(** ** A scalar filter: one state, one observable, identity model *)

Module Scalar1.
Local Open Scope Q_scope.

(** [np.eye(1)] *)
Definition one : np.ndarray Q := np.mk_nd 1 1 [[1]].

(** [f] and [h] return their argument; [getF] and [getH] return [[1]]. *)
Definition model : EKF.subclass Q := {|
  EKF.f := Some (fun d => d);
  EKF.getF := Some (fun _ => Some one);
  EKF.h := Some (fun d => d);
  EKF.getH := Some (fun _ => Some one)
|}.

Section Run.
Context {LA : np.LinAlg Q}.

(** The filter as constructed with [n = m = 1] and [qval = 0]. *)
Definition init (pval rval : Q) : result (EKF.t Q) * EKF.log Q :=
  EKF.new model Python3 1 1 pval 0 rval [].

(** The entry of [P_post] after [k] steps on the measurement [c]. *)
Definition P_post_after (pval rval c : Q) (k : nat) : option Q :=
  match init pval rval with
  | (Ret o, out) =>
      match EKF.steps model k [c] (o, out) with
      | Some s => option_map (fun a => np.get a 0 0) (data (EKF.P_post (fst s)))
      | None => None
      end
  | (Raise _, _) => None
  end.

(** [np.linalg.inv] is exact on 1x1 arrays: it fails on [[0]] only,
    and returns the reciprocal otherwise. *)
Definition exact_on_scalars : Prop :=
  forall s : Q, ~ s == 0 ->
    exists t : Q,
      np.linalg_inv (np.mk_nd 1 1 [[s]]) = Some (np.mk_nd 1 1 [[t]]) /\
      t * s == 1.

End Run.

(** An instance of the scalar filter: state [xv], covariance [p], the
    noise scales as the constructor stores them. *)
Definition instance (pp : option (_Matrix Q)) (xv p qval rval : Q) : EKF.t Q := {|
  EKF.P_pre := pp;
  EKF.x := mat (np.mk_nd 1 1 [[xv]]);
  EKF.P_post := mat (np.mk_nd 1 1 [[p]]);
  EKF.F := mat one;
  EKF.H := mat one;
  EKF.Q := mat (np.mk_nd 1 1 [[1 * qval]]);
  EKF.R := mat (np.mk_nd 1 1 [[1 * rval]]);
  EKF.I := mat one
|}.

(** The instance and the log the constructor leaves. *)
Definition start (pval qval rval : Q) : EKF.state Q :=
  (instance None 0 (1 * pval) qval rval,
   [Call m_getF (Some (np.mk_nd 1 1 [[0]])); Call m_getH (Some (np.mk_nd 1 1 [[0]]))]).

(** A class that defines the two Jacobians and leaves [f] and [h]
    abstract. *)
Definition jacobians_only : EKF.subclass Q := {|
  EKF.f := None;
  EKF.getF := Some (fun _ => Some one);
  EKF.h := None;
  EKF.getH := Some (fun _ => Some one)
|}.

(** A scalar model that observes nothing: [f] adds 1 to the state, and
    the Jacobian of [h] is zero. *)
Definition blind : EKF.subclass Q := {|
  EKF.f := Some (option_map (fun a =>
             np.tab (np.nrows a) (np.ncols a) (fun i j => np.get a i j + 1)));
  EKF.getF := Some (fun _ => Some one);
  EKF.h := Some (fun d => d);
  EKF.getH := Some (fun _ => Some (np.mk_nd 1 1 [[0]]))
|}.

End Scalar1.

(** ** A filter with three states and two observables *)

Module Filter32.
Local Open Scope Q_scope.

(** [f] adds 1 to every state; [h] reads the first two states. *)
Definition model : EKF.subclass Q := {|
  EKF.f := Some (option_map (fun a =>
             np.tab (np.nrows a) (np.ncols a) (fun i j => np.get a i j + 1)));
  EKF.getF := Some (fun _ =>
             Some (np.mk_nd 3 3 [[1; 0; 0]; [0; 1; 0]; [0; 0; 1]]));
  EKF.h := Some (option_map (fun a => np.tab 2 1 (fun i j => np.get a i j)));
  EKF.getH := Some (fun _ => Some (np.mk_nd 2 3 [[1; 0; 0]; [0; 1; 0]]))
|}.

Definition eye3 : np.ndarray Q := np.mk_nd 3 3 [[1; 0; 0]; [0; 1; 0]; [0; 0; 1]].

Definition zeros3 : np.ndarray Q := np.mk_nd 3 1 [[0]; [0]; [0]].

(** [model(3, 2, pval=1, qval=1, rval=1)], as constructed. *)
Definition start : EKF.state Q :=
  ({| EKF.P_pre := None;
      EKF.x := mat zeros3;
      EKF.P_post := mat eye3;
      EKF.F := mat eye3;
      EKF.H := mat (np.mk_nd 2 3 [[1; 0; 0]; [0; 1; 0]]);
      EKF.Q := mat eye3;
      EKF.R := mat (np.mk_nd 2 2 [[1; 0]; [0; 1]]);
      EKF.I := mat eye3 |},
   [Call m_getF (Some zeros3); Call m_getH (Some zeros3)]).

End Filter32.

(** ** The scalar filter in binary64, the arithmetic of the program *)

Module Float64.
Import PrimFloat.

#[export] Instance Scalar_float : Scalar float := {
  szero := 0%float;
  sone := 1%float;
  sadd := add;
  ssub := sub;
  smul := mul
}.

(** [np.linalg.inv] on a 1x1 array: the reciprocal of its element, an
    element equal to zero making the array singular.  Arrays of other
    shapes are not covered: this instance serves scalar filters only. *)
Definition inv_1x1 (a : np.ndarray float) : option (np.ndarray float) :=
  if Nat.eqb (np.nrows a) 1 && Nat.eqb (np.ncols a) 1 then
    if eqb (np.get a 0 0) 0 then None
    else Some (np.mk_nd 1 1 [[div 1 (np.get a 0 0)]])
  else None.

Lemma inv_1x1_shape (a b : np.ndarray float) :
  inv_1x1 a = Some b -> np.shape b = np.shape a.
Proof.
  unfold inv_1x1, np.shape.
  destruct (Nat.eqb_spec (np.nrows a) 1) as [Er|]; [|discriminate].
  destruct (Nat.eqb_spec (np.ncols a) 1) as [Ec|]; [|discriminate].
  simpl. destruct (eqb _ _); [discriminate|].
  intros [= <-]; simpl. now rewrite Er, Ec.
Qed.

#[export] Instance LinAlg_float : np.LinAlg float := {
  np.linalg_inv := inv_1x1;
  np.linalg_inv_shape := inv_1x1_shape
}.

(** [np.eye(1)] *)
Definition one : np.ndarray float := np.mk_nd 1 1 [[1%float]].

(** [f] and [h] return their argument; [getF] and [getH] return [[1]]. *)
Definition model : EKF.subclass float := {|
  EKF.f := Some (fun d => d);
  EKF.getF := Some (fun _ => Some one);
  EKF.h := Some (fun d => d);
  EKF.getH := Some (fun _ => Some one)
|}.

(** An instance of the scalar filter: state [xv], covariance [p], the
    noise scales as the constructor stores them. *)
Definition instance (pp : option (_Matrix float)) (xv p qval rval : float)
  : EKF.t float := {|
  EKF.P_pre := pp;
  EKF.x := mat (np.mk_nd 1 1 [[xv]]);
  EKF.P_post := mat (np.mk_nd 1 1 [[p]]);
  EKF.F := mat one;
  EKF.H := mat one;
  EKF.Q := mat (np.mk_nd 1 1 [[mul 1 qval]]);
  EKF.R := mat (np.mk_nd 1 1 [[mul 1 rval]]);
  EKF.I := mat one
|}.

(** The entry of [P_post] after [k] steps on the measurement [c], for
    the filter constructed with [n = m = 1] and [qval = 0]. *)
Definition P_post_after (pval rval c : float) (k : nat) : option float :=
  match EKF.new model Python3 1 1 pval 0%float rval [] with
  | (Ret o, out) =>
      match EKF.steps model k [c] (o, out) with
      | Some s => option_map (fun a => np.get a 0 0) (data (EKF.P_post (fst s)))
      | None => None
      end
  | (Raise _, _) => None
  end.

End Float64.

(** * Properties *)

(** ** Arrays *)

Section ArrayFacts.
Context {T : Type} {ST : Scalar T}.

Lemma nth_tabulate {A : Type} (g : nat -> A) (n i : nat) (d : A) :
  i < n -> nth i (map g (seq 0 n)) d = g i.
Proof.
  intros Hi.
  rewrite (nth_indep _ d (g 0)) by now rewrite length_map, length_seq.
  now rewrite map_nth, seq_nth.
Qed.

Lemma get_tab (r c : nat) (g : nat -> nat -> T) (i j : nat) :
  i < r -> j < c -> np.get (np.tab r c g) i j = g i j.
Proof.
  intros Hi Hj. unfold np.get, np.tab; simpl.
  rewrite (nth_tabulate (fun i => map (g i) (seq 0 c)) [] Hi).
  now apply nth_tabulate.
Qed.

Lemma tab_ext (r c : nat) (g g' : nat -> nat -> T) :
  (forall i j, i < r -> j < c -> g i j = g' i j) ->
  np.tab r c g = np.tab r c g'.
Proof.
  intros E. unfold np.tab. f_equal.
  apply map_ext_in; intros i Hi. apply in_seq in Hi.
  apply map_ext_in; intros j Hj. apply in_seq in Hj.
  apply E; lia.
Qed.

Lemma bidx_lt (d i : nat) : i < d -> np.bidx d i = i.
Proof.
  unfold np.bidx. destruct (Nat.eqb_spec d 1); lia.
Qed.

Lemma bdim_same (d : nat) : np.bdim d d = Some d.
Proof. unfold np.bdim. now rewrite Nat.eqb_refl. Qed.

(** On two arrays of one shape, broadcasting is the elementwise
    operation. *)
Lemma broadcast_same_shape (op : T -> T -> T) (a b : np.ndarray T) :
  np.shape a = np.shape b -> np.broadcast op a b = Ret (np.zip op a b).
Proof.
  unfold np.shape; intros [= Er Ec]. unfold np.broadcast, np.zip.
  rewrite <- Er, <- Ec, !bdim_same. f_equal.
  apply tab_ext; intros i j Hi Hj.
  now rewrite !bidx_lt.
Qed.

Lemma binop_same_shape (op : T -> T -> T) (a b : np.ndarray T) :
  np.shape a = np.shape b ->
  np.binop op (Some a) (Some b) = Ret (np.zip op a b).
Proof. apply broadcast_same_shape. Qed.

Lemma dot_aligned (a b : np.ndarray T) :
  np.ncols a = np.nrows b -> np.dot (Some a) (Some b) = Ret (np.matmul a b).
Proof. intros E; simpl. now rewrite E, Nat.eqb_refl. Qed.

Lemma norm_index_nat (len i : nat) :
  i < len -> np.norm_index len (Z.of_nat i) = Ret i.
Proof.
  intros Hi. unfold np.norm_index.
  replace (_ && _) with true
    by (symmetry; apply andb_true_iff; split; [apply Z.leb_le | apply Z.ltb_lt]; lia).
  replace (Z.of_nat i <? 0)%Z with false by (symmetry; apply Z.ltb_ge; lia).
  now rewrite Nat2Z.id.
Qed.

(** The loop of [fromTuple], once the first [length pre] rows are set. *)
Lemma fill_rows (t pre : list T) :
  let L := length pre + length t in
  _Vector.fill
    (mat (np.tab L 1 (fun p _ =>
            if p <? length pre then nth p (pre ++ t) szero else szero)))
    (length pre) t
  = Ret (mat (np.column (pre ++ t))).
Proof.
  revert pre. induction t as [|tk t IH]; intros pre L; subst L.
  - simpl. unfold mat, np.column. do 3 f_equal.
    rewrite length_app; simpl.
    apply tab_ext; intros i j Hi _.
    destruct (Nat.ltb_spec i (length pre)); [reflexivity | lia].
  - simpl _Vector.fill. unfold _Matrix.__setitem__, mat at 1; simpl data.
    unfold np.setitem. rewrite norm_index_nat by (simpl; lia).
    simpl rbind. specialize (IH (pre ++ [tk])).
    rewrite <- app_assoc in IH; simpl in IH.
    rewrite length_app in IH; simpl in IH.
    rewrite Nat.add_1_r in IH. rewrite <- IH.
    simpl np.nrows; simpl np.ncols.
    replace (length pre + S (length t)) with (S (length pre) + length t) by lia.
    f_equal. unfold mat. f_equal. f_equal.
    apply tab_ext; intros i j Hi Hj.
    rewrite get_tab by assumption.
    destruct (Nat.eqb_spec i (length pre)) as [->|Hne].
    + replace (length pre <? S (length pre)) with true
        by (symmetry; apply Nat.ltb_lt; lia).
      now rewrite nth_middle.
    + destruct (Nat.ltb_spec i (length pre)), (Nat.ltb_spec i (S (length pre)));
        try lia; reflexivity.
Qed.

(** [fromTuple] of a non-empty tuple is the column of its elements. *)
Lemma fromTuple_column (t : list T) :
  t <> [] -> _Vector.fromTuple t = Ret (mat (np.column t)).
Proof.
  intros Hne. unfold _Vector.fromTuple, _Vector.__init__.
  replace (0 <? Z.of_nat (length t))%Z with true
    by (symmetry; apply Z.ltb_lt; destruct t; [congruence | simpl; lia]).
  rewrite Nat2Z.id.
  exact (fill_rows t []).
Qed.

(** [fromTuple] of the empty tuple holds no array. *)
Lemma fromTuple_empty : _Vector.fromTuple (@nil T) = Ret {| data := None |}.
Proof. reflexivity. Qed.

Lemma fromTuple_returns (t : list T) : exists v, _Vector.fromTuple t = Ret v.
Proof.
  destruct t as [|t0 t'].
  - eexists. apply fromTuple_empty.
  - eexists. apply fromTuple_column. discriminate.
Qed.

End ArrayFacts.

(** ** [_Matrix.eye] *)

Section Eye.
Context {T : Type} {ST : Scalar T} {LA : np.LinAlg T}.

Lemma np_eye_nonneg (n m : Z) :
  (0 <= n)%Z -> (0 <= m)%Z ->
  np.eye n m = Ret (np.tab (Z.to_nat n) (Z.to_nat m)
                      (fun i j => if Nat.eqb i j then sone else szero)).
Proof.
  intros Hn Hm. unfold np.eye.
  now replace ((n <? 0)%Z || (m <? 0)%Z) with false
    by (symmetry; apply orb_false_iff; split; apply Z.ltb_ge; lia).
Qed.

Lemma np_eye_is_eye (n m : Z) :
  (0 <= n)%Z -> (0 <= m)%Z ->
  exists a, np.eye n m = Ret a /\ np.is_eye (Z.to_nat n) (Z.to_nat m) a.
Proof.
  intros Hn Hm. rewrite np_eye_nonneg by assumption.
  eexists; split; [reflexivity|]. split; [reflexivity|].
  intros i j Hi Hj. now apply get_tab.
Qed.

(** [eye(n)] with the second argument omitted. *)
Lemma eye_default (n : Z) :
  (0 <= n)%Z ->
  _Matrix.eye n None
  = Ret (mat (np.tab (Z.to_nat n) (Z.to_nat n)
                (fun i j => if Nat.eqb i j then sone else szero))).
Proof.
  intros Hn. unfold _Matrix.eye; simpl. now rewrite np_eye_nonneg.
Qed.

(** C9, as the code has it: with [n >= 0] and an explicit [m >= 1],
    [eye(n, m)] is the [n]x[m] array with ones on the main diagonal and
    zeros elsewhere; with [m] omitted, or given as 0, it is the [n]x[n]
    one. *)
Theorem eye_identity (n m : Z) :
  (0 <= n)%Z -> (1 <= m)%Z ->
  (exists a, _Matrix.eye n (Some m) = Ret (mat a) /\
             np.is_eye (Z.to_nat n) (Z.to_nat m) a) /\
  (exists a, _Matrix.eye n None = Ret (mat a) /\
             _Matrix.eye n (Some 0%Z) = Ret (mat a) /\
             np.is_eye (Z.to_nat n) (Z.to_nat n) a).
Proof.
  intros Hn Hm. split.
  - destruct (np_eye_is_eye Hn (Z.le_trans _ _ _ Z.le_0_1 Hm)) as (a & E & Ha).
    exists a. split; [|exact Ha].
    unfold _Matrix.eye. replace (m =? 0)%Z with false by (symmetry; apply Z.eqb_neq; lia).
    now rewrite E.
  - destruct (np_eye_is_eye Hn Hn) as (a & E & Ha).
    exists a. unfold _Matrix.eye; simpl. now rewrite E.
Qed.

End Eye.

(** At [n = 2], [m = 3] over the rationals. *)
Lemma eye_identity_2_3 :
  (exists a, _Matrix.eye 2 (Some 3%Z) = Ret (mat a) /\ np.is_eye (T := Q) 2 3 a) /\
  (exists a, _Matrix.eye 2 None = Ret (mat a) /\
             _Matrix.eye 2 (Some 0%Z) = Ret (mat a) /\
             np.is_eye (T := Q) 2 2 a).
Proof.
  apply (@eye_identity Q Scalar_Q 2%Z 3%Z); lia.
Defined.

(** C9 as stated fails for an explicit [m = 0]: [eye(2, 0)] is the 2x2
    identity, not a 2x0 array. *)
Lemma eye_explicit_zero_is_square :
  _Matrix.eye (T := Q) 2 (Some 0%Z)
  = Ret (mat (np.mk_nd 2 2 [[1%Q; 0%Q]; [0%Q; 1%Q]])) /\
  ~ (exists a, _Matrix.eye (T := Q) 2 (Some 0%Z) = Ret (mat a) /\
               np.is_eye 2 0 a).
Proof.
  split; [reflexivity|].
  intros (a & E & Hs & _). vm_compute in E.
  injection E as <-. discriminate Hs.
Qed.

(** ** Element access *)

Section Items.
Context {T : Type} {ST : Scalar T}.

Lemma norm_index_spec (len : nat) (i : Z) :
  np.norm_index len i =
  if np.in_range len i then Ret (np.position len i) else Raise IndexError.
Proof. reflexivity. Qed.

(** C10, as the code has it: an index is accepted exactly when it lies
    in [-len, len) for its axis.  Outside, reading and writing both raise
    [IndexError]; inside, a negative index counts from the end, and the
    access succeeds. *)
Theorem item_access_range (a : np.ndarray T) (i j : Z) (v : T) :
  (np.key_in_range a (np.KPair i j) = false ->
     _Matrix.__getitem__ (mat a) (np.KPair i j) = Raise IndexError /\
     _Matrix.__setitem__ (mat a) (np.KPair i j) v = Raise IndexError) /\
  (np.key_in_range a (np.KInt i) = false ->
     _Matrix.__getitem__ (mat a) (np.KInt i) = Raise IndexError /\
     _Matrix.__setitem__ (mat a) (np.KInt i) v = Raise IndexError) /\
  (np.key_in_range a (np.KPair i j) = true ->
     _Matrix.__getitem__ (mat a) (np.KPair i j)
     = Ret (np.IScalar
              (np.get a (np.position (np.nrows a) i) (np.position (np.ncols a) j))) /\
     exists a', _Matrix.__setitem__ (mat a) (np.KPair i j) v = Ret (mat a') /\
                np.shape a' = np.shape a /\
                np.get a' (np.position (np.nrows a) i) (np.position (np.ncols a) j)
                = v).
Proof.
  unfold _Matrix.__getitem__, _Matrix.__setitem__, mat; simpl data.
  unfold np.getitem, np.setitem, np.key_in_range.
  rewrite !norm_index_spec.
  split; [|split].
  - intros E. apply andb_false_iff in E.
    destruct (np.in_range (np.nrows a) i); simpl; [|now split].
    destruct E as [E|E]; [discriminate|]. rewrite E. now split.
  - intros ->. now split.
  - intros E. apply andb_true_iff in E. destruct E as [Ei Ej].
    rewrite Ei, Ej; simpl. split; [reflexivity|].
    eexists; split; [reflexivity|]. split; [reflexivity|].
    assert (Hi : np.position (np.nrows a) i < np.nrows a).
    { unfold np.in_range in Ei. apply andb_true_iff in Ei.
      destruct Ei as [E1 E2]. apply Z.leb_le in E1. apply Z.ltb_lt in E2.
      unfold np.position. destruct (Z.ltb_spec i 0); lia. }
    assert (Hj : np.position (np.ncols a) j < np.ncols a).
    { unfold np.in_range in Ej. apply andb_true_iff in Ej.
      destruct Ej as [E1 E2]. apply Z.leb_le in E1. apply Z.ltb_lt in E2.
      unfold np.position. destruct (Z.ltb_spec j 0); lia. }
    rewrite get_tab by assumption.
    now rewrite !Nat.eqb_refl.
Qed.

End Items.

(** At a 2x2 array of rationals: the pair [(2, 0)] is refused, the pair
    [(-1, -2)] is accepted. *)
Lemma item_access_range_2x2 :
  let a := np.mk_nd 2 2 [[1%Q; 2%Q]; [3%Q; 4%Q]] in
  (_Matrix.__getitem__ (mat a) (np.KPair 2 0) = Raise IndexError /\
   _Matrix.__setitem__ (mat a) (np.KPair 2 0) 9%Q = Raise IndexError) /\
  _Matrix.__getitem__ (mat a) (np.KPair (-1) (-2)) = Ret (np.IScalar 3%Q).
Proof.
  intros a. split.
  - exact (proj1 (item_access_range a 2 0 9%Q) eq_refl).
  - exact (proj1 (proj2 (proj2 (item_access_range a (-1) (-2) 9%Q)) eq_refl)).
Defined.

(** C10 as stated fails for negative indices: row [-1] and column [-1]
    are outside [0, 2), yet the read returns the last element and the
    write succeeds. *)
Lemma negative_index_is_accepted :
  let a := np.mk_nd 2 2 [[1%Q; 2%Q]; [3%Q; 4%Q]] in
  _Matrix.__getitem__ (mat a) (np.KPair (-1) (-1)) = Ret (np.IScalar 4%Q) /\
  _Matrix.__setitem__ (mat a) (np.KPair (-1) (-1)) 9%Q
  = Ret (mat (np.mk_nd 2 2 [[1%Q; 2%Q]; [3%Q; 9%Q]])) /\
  _Matrix.__getitem__ (mat a) (np.KPair (-1) (-1)) <> Raise IndexError.
Proof.
  intros a. split; [reflexivity | split; [reflexivity | discriminate]].
Qed.

(** ** The constructor *)

Section Constructor.
Context {T : Type} {ST : Scalar T} {LA : np.LinAlg T}.
Variable cls : EKF.subclass T.

Lemma scale_eye_is_scaled_eye (n : nat) (s : T) :
  np.is_scaled_eye n n s
    (np.scale (np.copy (np.tab n n (fun i j => if Nat.eqb i j then sone else szero))) s).
Proof.
  split; [reflexivity|]. intros i j Hi Hj.
  unfold np.scale, np.copy; simpl np.nrows; simpl np.ncols.
  now rewrite !get_tab.
Qed.

Lemma zeros_is_zero_vector (n : nat) : np.is_zero_vector (T := T) n (np.zeros n 1).
Proof.
  split; [reflexivity|]. unfold np.flat, np.zeros; simpl np.nrows.
  apply nth_ext with (d := szero) (d' := szero).
  - now rewrite length_map, length_seq, repeat_length.
  - intros i Hi. rewrite length_map, length_seq in Hi.
    rewrite nth_repeat.
    rewrite (nth_tabulate (fun i => np.get (np.tab n 1 (fun _ _ => szero)) i 0) szero Hi).
    rewrite get_tab by lia. reflexivity.
Qed.

(** What the constructor returns, and the calls it makes. *)
Lemma init_returns (n m : Z) (pval qval rval : T)
  (gF gH : _Matrix T -> np.pydata T) (out : EKF.log T) :
  (0 < n)%Z -> (0 <= m)%Z ->
  EKF.getF cls = Some gF -> EKF.getH cls = Some gH ->
  exists x0 aP aQ aR aI,
    EKF.__init__ cls n m pval qval rval out
    = (Ret {| EKF.P_pre := None;
              EKF.x := mat x0;
              EKF.P_post := mat aP;
              EKF.F := {| data := gF (mat x0) |};
              EKF.H := {| data := gH (mat x0) |};
              EKF.Q := mat aQ;
              EKF.R := mat aR;
              EKF.I := mat aI |},
       out ++ [Call m_getF (Some x0); Call m_getH (Some x0)]) /\
    np.is_zero_vector (Z.to_nat n) x0 /\
    np.is_scaled_eye (Z.to_nat n) (Z.to_nat n) pval aP /\
    np.is_scaled_eye (Z.to_nat n) (Z.to_nat n) qval aQ /\
    np.is_scaled_eye (Z.to_nat m) (Z.to_nat m) rval aR /\
    np.is_eye (Z.to_nat n) (Z.to_nat n) aI.
Proof.
  intros Hn Hm EF EH.
  set (eye_ := fun k : nat =>
         np.tab k k (fun i j => if Nat.eqb i j then sone else szero : T)).
  exists (np.zeros (Z.to_nat n) 1),
    (np.scale (np.copy (eye_ (Z.to_nat n))) pval),
    (np.scale (np.copy (eye_ (Z.to_nat n))) qval),
    (np.scale (np.copy (eye_ (Z.to_nat m))) rval),
    (eye_ (Z.to_nat n)).
  subst eye_. cbv beta.
  split.
  - unfold EKF.__init__, mbind, lift, mret, EKF.call.
    rewrite !eye_default by lia. rewrite EF, EH.
    unfold _Vector.__init__.
    replace (0 <? n)%Z with true by (symmetry; apply Z.ltb_lt; lia).
    simpl. now rewrite <- app_assoc.
  - split; [apply zeros_is_zero_vector|].
    repeat (split; [apply scale_eye_is_scaled_eye|]).
    split; [reflexivity|]. intros i j Hi Hj. now apply get_tab.
Qed.

(** C5: with [n >= 1] and [m >= 0], the constructor returns an instance
    whose [x] is the zero vector of length [n], whose [P_post], [Q] and
    [R] are [pval], [qval] and [rval] times the identities of sizes [n],
    [n] and [m], whose [I] is the [n]x[n] identity, and whose [F] and [H]
    hold as [data] what [getF] and [getH] return on that zero vector; the
    two methods are called once each, [getF] first, and nothing else
    is. *)
Theorem init_fields (n m : Z) (pval qval rval : T)
  (gF gH : _Matrix T -> np.pydata T) (out : EKF.log T) :
  (0 < n)%Z -> (0 <= m)%Z ->
  EKF.getF cls = Some gF -> EKF.getH cls = Some gH ->
  exists x0 aP aQ aR aI,
    EKF.__init__ cls n m pval qval rval out
    = (Ret {| EKF.P_pre := None;
              EKF.x := mat x0;
              EKF.P_post := mat aP;
              EKF.F := {| data := gF (mat x0) |};
              EKF.H := {| data := gH (mat x0) |};
              EKF.Q := mat aQ;
              EKF.R := mat aR;
              EKF.I := mat aI |},
       out ++ [Call m_getF (Some x0); Call m_getH (Some x0)]) /\
    np.is_zero_vector (Z.to_nat n) x0 /\
    np.is_scaled_eye (Z.to_nat n) (Z.to_nat n) pval aP /\
    np.is_scaled_eye (Z.to_nat n) (Z.to_nat n) qval aQ /\
    np.is_scaled_eye (Z.to_nat m) (Z.to_nat m) rval aR /\
    np.is_eye (Z.to_nat n) (Z.to_nat n) aI.
Proof.
  intros Hn Hm EF EH. now apply init_returns.
Qed.

End Constructor.

(** At the scalar model, with [n = m = 1]. *)
Lemma init_fields_scalar :
  exists x0 aP aQ aR aI,
    EKF.__init__ Scalar1.model 1 1 (1 # 10)%Q 0%Q (1 # 10)%Q []
    = (Ret {| EKF.P_pre := None;
              EKF.x := mat x0;
              EKF.P_post := mat aP;
              EKF.F := {| data := Some Scalar1.one |};
              EKF.H := {| data := Some Scalar1.one |};
              EKF.Q := mat aQ;
              EKF.R := mat aR;
              EKF.I := mat aI |},
       [] ++ [Call m_getF (Some x0); Call m_getH (Some x0)]) /\
    np.is_zero_vector 1 x0 /\
    np.is_scaled_eye 1 1 (1 # 10)%Q aP /\
    np.is_scaled_eye 1 1 0%Q aQ /\
    np.is_scaled_eye 1 1 (1 # 10)%Q aR /\
    np.is_eye 1 1 aI.
Proof.
  apply (@init_fields Q Scalar_Q Scalar1.model 1%Z 1%Z
           (1 # 10)%Q 0%Q (1 # 10)%Q (fun _ => Some Scalar1.one)
           (fun _ => Some Scalar1.one) []);
    [lia | lia | reflexivity | reflexivity].
Defined.

(** ** The operations of a step, on operands of the right shapes *)

Section Operations.
Context {T : Type} {ST : Scalar T} {LA : np.LinAlg T}.

Lemma shape_of_Some (d : np.pydata T) (r c : nat) :
  np.shape_of d = Some (r, c) ->
  exists a, d = Some a /\ np.nrows a = r /\ np.ncols a = c.
Proof.
  destruct d as [a|]; [|discriminate].
  unfold np.shape_of, np.shape; simpl. intros [= Er Ec]. now exists a.
Qed.

Lemma mul_mat (a b : np.ndarray T) :
  np.ncols a = np.nrows b ->
  _Matrix.__mul__ (mat a) (_Matrix.Mat (mat b)) = Ret (mat (np.matmul a b)).
Proof.
  intros E. unfold _Matrix.__mul__, mat; simpl data. now rewrite dot_aligned.
Qed.

Lemma add_mat (a b : np.ndarray T) :
  np.shape a = np.shape b ->
  _Matrix.__add__ (mat a) (mat b) = Ret (mat (np.zip sadd a b)).
Proof.
  intros E. unfold _Matrix.__add__, mat; simpl data. now rewrite binop_same_shape.
Qed.

Lemma sub_mat (a b : np.ndarray T) :
  np.shape a = np.shape b ->
  _Matrix.__sub__ (mat a) (mat b) = Ret (mat (np.zip ssub a b)).
Proof.
  intros E. unfold _Matrix.__sub__, mat; simpl data. now rewrite binop_same_shape.
Qed.

Lemma sub_none_nonempty (b : np.ndarray T) :
  0 < np.nrows b -> 0 < np.ncols b ->
  _Matrix.__sub__ {| data := None |} (mat b) = Raise TypeError.
Proof.
  intros Hr Hc. unfold _Matrix.__sub__, np.binop, np.with_none, np.is_empty.
  unfold mat. cbn [data].
  destruct (Nat.eqb_spec (np.nrows b) 0); [lia|].
  destruct (Nat.eqb_spec (np.ncols b) 0); [lia|]. reflexivity.
Qed.

Lemma transpose_mat (a : np.ndarray T) :
  _Matrix.transpose (mat a) = Ret (mat (np.transpose a)).
Proof. reflexivity. Qed.

Lemma copy_mat (a : np.ndarray T) : _Matrix.copy (mat a) = mat a.
Proof. reflexivity. Qed.

Lemma fromData_Some (a : np.ndarray T) : _Vector.fromData (Some a) = mat a.
Proof. reflexivity. Qed.

Lemma data_mat (a : np.ndarray T) : data (mat a) = Some a.
Proof. reflexivity. Qed.

Lemma asarray_mat (a : np.ndarray T) :
  0 < np.ncols a -> _Matrix.asarray (mat a) = Ret (np.flat a).
Proof.
  intros Hc. unfold _Matrix.asarray, mat; simpl data. unfold np.column0.
  pose proof (norm_index_nat (i := 0) Hc) as E. simpl Z.of_nat in E.
  now rewrite E.
Qed.

Lemma invert_returns {A : Type} (a b : np.ndarray T)
  (k : _Matrix T -> M (EKF.state T) A) (o : EKF.t T) (out : EKF.log T) :
  np.linalg_inv a = Some b ->
  mbind (EKF.on_log (_Matrix.invert (mat a))) k (o, out) = k (mat b) (o, out).
Proof.
  intros E. unfold mbind, EKF.on_log, _Matrix.invert; simpl. now rewrite E.
Qed.

Lemma invert_exits {A : Type} (a : np.ndarray T)
  (k : _Matrix T -> M (EKF.state T) A) (o : EKF.t T) (out : EKF.log T) :
  np.linalg_inv a = None ->
  mbind (EKF.on_log (_Matrix.invert (mat a))) k (o, out)
  = (Raise (SystemExit 0),
     (o, out ++ [PrintData (Some a); PrintExn LinAlgError])).
Proof.
  intros E. unfold mbind, EKF.on_log, _Matrix.invert; simpl. now rewrite E.
Qed.

Lemma length_flat (a : np.ndarray T) : length (np.flat a) = np.nrows a.
Proof. unfold np.flat. now rewrite length_map, length_seq. Qed.

(** The arrays of an instance of the right shapes. *)
Lemma shaped_arrays (n m : nat) (o : EKF.t T) :
  EKF.shaped n m o ->
  exists pp, exists ax aP aF aH aQ aR aI : np.ndarray T,
    o = {| EKF.P_pre := pp; EKF.x := mat ax; EKF.P_post := mat aP;
           EKF.F := mat aF; EKF.H := mat aH; EKF.Q := mat aQ;
           EKF.R := mat aR; EKF.I := mat aI |} /\
    (np.nrows ax = n /\ np.ncols ax = 1) /\
    (np.nrows aP = n /\ np.ncols aP = n) /\
    (np.nrows aF = n /\ np.ncols aF = n) /\
    (np.nrows aH = m /\ np.ncols aH = n) /\
    (np.nrows aQ = n /\ np.ncols aQ = n) /\
    (np.nrows aR = m /\ np.ncols aR = m) /\
    (np.nrows aI = n /\ np.ncols aI = n).
Proof.
  intros (Sx & SP & SF & SH & SQ & SR & SI).
  destruct o as [pp [dx] [dP] [dF] [dH] [dQ] [dR] [dI]]; simpl in *.
  apply shape_of_Some in Sx, SP, SF, SH, SQ, SR, SI.
  destruct Sx as (ax & -> & ? & ?), SP as (aP & -> & ? & ?),
    SF as (aF & -> & ? & ?), SH as (aH & -> & ? & ?),
    SQ as (aQ & -> & ? & ?), SR as (aR & -> & ? & ?),
    SI as (aI & -> & ? & ?).
  exists pp, ax, aP, aF, aH, aQ, aR, aI. repeat split; assumption.
Qed.

End Operations.

(** Unfolding the plumbing of a method body, up to the next operation. *)
Ltac glue :=
  cbn [mbind lift mret EKF.self EKF.on_log EKF.call EKF.set_x EKF.set_P_pre
       EKF.set_P_post EKF.get_P_pre fst snd
       EKF.P_pre EKF.x EKF.P_post EKF.F EKF.H EKF.Q EKF.R EKF.I].

Ltac shapes := unfold np.shape; simpl; congruence.

(** Running the operations whose operands have the shapes they need. *)
Ltac run :=
  repeat (glue;
          first [ rewrite data_mat
                | rewrite fromData_Some
                | rewrite copy_mat
                | rewrite transpose_mat
                | rewrite mul_mat by shapes
                | rewrite add_mat by shapes
                | rewrite sub_mat by shapes ]);
  glue.

(** ** One step *)

Section Step.
Context {T : Type} {ST : Scalar T} {LA : np.LinAlg T}.
Variable cls : EKF.subclass T.

(** The state and the result of a step that runs to its end. *)
Lemma step_returns (n m : nat) (o : EKF.t T) (out : EKF.log T) (z : list T)
  (ff hh : np.pydata T -> np.pydata T) (ax1 ahx aSi : np.ndarray T) :
  EKF.shaped n m o ->
  EKF.f cls = Some ff -> EKF.h cls = Some hh ->
  ff (data (EKF.x o)) = Some ax1 -> np.shape ax1 = (n, 1) ->
  hh (Some ax1) = Some ahx -> np.shape ahx = (m, 1) ->
  length z = m -> 0 < m ->
  let aPpre :=
    EKF.predict_cov (arr (EKF.F o)) (arr (EKF.P_post o)) (arr (EKF.Q o)) in
  let aS := EKF.innovation_cov (arr (EKF.H o)) aPpre (arr (EKF.R o)) in
  np.linalg_inv aS = Some aSi ->
  let aG := EKF.gain aPpre (arr (EKF.H o)) aSi in
  let ax2 := EKF.update_state ax1 aG z ahx in
  EKF.step cls z (o, out)
  = (Ret (np.flat ax2),
     ({| EKF.P_pre := Some (mat aPpre);
         EKF.x := mat ax2;
         EKF.P_post := mat (EKF.update_cov (arr (EKF.I o)) aG (arr (EKF.H o)) aPpre);
         EKF.F := EKF.F o; EKF.H := EKF.H o; EKF.Q := EKF.Q o;
         EKF.R := EKF.R o; EKF.I := EKF.I o |},
      out ++ [Call m_f (data (EKF.x o)); Call m_h (Some ax1)])) /\
  length (np.flat ax2) = n.
Proof.
  intros So Ef Eh Efx Sx1 Ehx Shx Lz Hm aPpre aS Einv aG ax2.
  destruct (shaped_arrays So)
    as (pp & ax & aP & aF & aH & aQ & aR & aI & -> &
        [] & [] & [] & [] & [] & [] & []).
  pose proof Einv as Si. apply np.linalg_inv_shape in Si.
  unfold np.shape in Sx1, Shx, Si.
  injection Sx1 as ? ?. injection Shx as ? ?. injection Si as Si1 Si2.
  subst aPpre aS aG ax2. simpl EKF.x in *; simpl EKF.F in *; simpl EKF.H in *;
    simpl EKF.P_post in *; simpl EKF.Q in *; simpl EKF.R in *; simpl EKF.I in *.
  unfold arr in *; rewrite ?data_mat in *. simpl in Si1, Si2.
  unfold EKF.innovation_cov, EKF.predict_cov, EKF.gain, EKF.update_state,
    EKF.update_cov in *.
  split.
  2:{ rewrite length_flat. simpl. congruence. }
  unfold EKF.step. glue. rewrite Ef, ?data_mat, Efx.
  run. erewrite invert_returns by exact Einv. run.
  rewrite fromTuple_column by (intros ->; simpl in Lz; lia).
  glue. rewrite Eh, ?data_mat, Ehx. run.
  rewrite asarray_mat by (simpl; lia).
  rewrite <- app_assoc. reflexivity.
Qed.

(** C1: on an instance of the right shapes, with [f] and [h] returning
    arrays of the right shapes, a measurement of length [m >= 1] and an
    invertible innovation covariance, [step] calls [f] on the state,
    then [h] on the predicted state [f(x)], and nothing else; it leaves
    [P_pre = F P_post Ft + Q], [x = f(x) + G (z - h(f(x)))] with
    [G = P_pre Ht (H P_pre Ht + R)^-1], and [P_post = (I - G H) P_pre];
    and it returns the [n] elements of the new [x] in order. *)
Theorem step_effects (n m : nat) (o : EKF.t T) (out : EKF.log T) (z : list T)
  (ff hh : np.pydata T -> np.pydata T) (ax1 ahx aSi : np.ndarray T) :
  EKF.shaped n m o ->
  EKF.f cls = Some ff -> EKF.h cls = Some hh ->
  ff (data (EKF.x o)) = Some ax1 -> np.shape ax1 = (n, 1) ->
  hh (Some ax1) = Some ahx -> np.shape ahx = (m, 1) ->
  length z = m -> 0 < m ->
  let aPpre :=
    EKF.predict_cov (arr (EKF.F o)) (arr (EKF.P_post o)) (arr (EKF.Q o)) in
  let aS := EKF.innovation_cov (arr (EKF.H o)) aPpre (arr (EKF.R o)) in
  np.linalg_inv aS = Some aSi ->
  let aG := EKF.gain aPpre (arr (EKF.H o)) aSi in
  let ax2 := EKF.update_state ax1 aG z ahx in
  EKF.step cls z (o, out)
  = (Ret (np.flat ax2),
     ({| EKF.P_pre := Some (mat aPpre);
         EKF.x := mat ax2;
         EKF.P_post := mat (EKF.update_cov (arr (EKF.I o)) aG (arr (EKF.H o)) aPpre);
         EKF.F := EKF.F o; EKF.H := EKF.H o; EKF.Q := EKF.Q o;
         EKF.R := EKF.R o; EKF.I := EKF.I o |},
      out ++ [Call m_f (data (EKF.x o)); Call m_h (Some ax1)])) /\
  length (np.flat ax2) = n.
Proof.
  intros So Ef Eh Efx Sx1 Ehx Shx Lz Hm aPpre aS Einv aG ax2.
  now apply step_returns with (m := m) (ff := ff) (hh := hh).
Qed.

End Step.

(** ** What a step leaves alone *)

Section Frame.
Context {T : Type} {ST : Scalar T} {LA : np.LinAlg T}.
Variable cls : EKF.subclass T.

Lemma framed_refl (s : EKF.state T) : EKF.framed s s.
Proof.
  repeat split. exists []. now rewrite app_nil_r.
Qed.

Lemma framed_trans (s1 s2 s3 : EKF.state T) :
  EKF.framed s1 s2 -> EKF.framed s2 s3 -> EKF.framed s1 s3.
Proof.
  intros (F1 & H1 & Q1 & R1 & I1 & l1 & E1 & A1)
         (F2 & H2 & Q2 & R2 & I2 & l2 & E2 & A2).
  repeat split; try congruence.
  exists (l1 ++ l2). split.
  - now rewrite E2, E1, app_assoc.
  - now rewrite forallb_app, A1, A2.
Qed.

Lemma keeps_bind {A B : Type} (c : M (EKF.state T) A) (k : A -> M (EKF.state T) B) :
  EKF.keeps c -> (forall a, EKF.keeps (k a)) -> EKF.keeps (mbind c k).
Proof.
  intros Hc Hk s. unfold mbind. specialize (Hc s).
  destruct (c s) as [[a|e] s1]; simpl in *.
  - eapply framed_trans; [exact Hc | apply Hk].
  - exact Hc.
Qed.

Lemma keeps_lift {A : Type} (r : result A) :
  EKF.keeps (lift (S := EKF.state T) r).
Proof. intros s. apply framed_refl. Qed.

Lemma keeps_self : EKF.keeps (@EKF.self T).
Proof. intros s. apply framed_refl. Qed.

Lemma keeps_get_P_pre : EKF.keeps (@EKF.get_P_pre T).
Proof.
  intros s. unfold EKF.get_P_pre.
  destruct (EKF.P_pre (fst s)); apply framed_refl.
Qed.

Lemma keeps_set_x (v : _Matrix T) : EKF.keeps (EKF.set_x v).
Proof.
  intros s. repeat split. exists []. simpl. now rewrite app_nil_r.
Qed.

Lemma keeps_set_P_pre (v : _Matrix T) : EKF.keeps (EKF.set_P_pre v).
Proof.
  intros s. repeat split. exists []. simpl. now rewrite app_nil_r.
Qed.

Lemma keeps_set_P_post (v : _Matrix T) : EKF.keeps (EKF.set_P_post v).
Proof.
  intros s. repeat split. exists []. simpl. now rewrite app_nil_r.
Qed.

Lemma keeps_call_f (d : np.pydata T) :
  EKF.keeps (EKF.on_log (EKF.call m_f (EKF.f cls) d (fun d => d))).
Proof.
  intros s. repeat split. now exists [Call m_f d].
Qed.

Lemma keeps_call_h (d : np.pydata T) :
  EKF.keeps (EKF.on_log (EKF.call m_h (EKF.h cls) d (fun d => d))).
Proof.
  intros s. repeat split. now exists [Call m_h d].
Qed.

Lemma keeps_invert (S : _Matrix T) : EKF.keeps (EKF.on_log (_Matrix.invert S)).
Proof.
  intros [o out]. unfold EKF.on_log, _Matrix.invert; simpl.
  destruct (match data S with Some a => np.linalg_inv a | None => None end);
    simpl.
  - apply framed_refl.
  - repeat split. now eexists.
Qed.

Create HintDb frame.
#[local] Hint Resolve keeps_lift keeps_self keeps_get_P_pre keeps_set_x
  keeps_set_P_pre keeps_set_P_post keeps_call_f keeps_call_h keeps_invert
  : frame.

Lemma keeps_step (z : list T) : EKF.keeps (EKF.step cls z).
Proof.
  unfold EKF.step.
  repeat (apply keeps_bind; [auto with frame | intros ?]).
  auto with frame.
Qed.

(** C6: whatever a call of [step] returns, the instance it leaves has
    the [F], [H], [Q], [R] and [I] it had; and the calls the step adds to
    the log are calls of [f] and [h] only: [getF] and [getH] are not
    called again. *)
Theorem step_frame (z : list T) (s s' : EKF.state T) (r : result (list T)) :
  EKF.step cls z s = (r, s') ->
  EKF.F (fst s') = EKF.F (fst s) /\ EKF.H (fst s') = EKF.H (fst s) /\
  EKF.Q (fst s') = EKF.Q (fst s) /\ EKF.R (fst s') = EKF.R (fst s) /\
  EKF.I (fst s') = EKF.I (fst s) /\
  exists l, snd s' = snd s ++ l /\
            forall name arg, In (Call name arg) l -> name = m_f \/ name = m_h.
Proof.
  intros E. pose proof (keeps_step z s) as K. rewrite E in K; simpl in K.
  destruct K as (KF & KH & KQ & KR & KI & l & El & Al).
  repeat split; try assumption.
  exists l. split; [assumption|].
  intros name arg Hin. rewrite forallb_forall in Al.
  specialize (Al _ Hin). destruct name; simpl in Al; auto; discriminate.
Qed.

End Frame.

(** ** Steps that fail, and the shapes after a step *)

Section Outcomes.
Context {T : Type} {ST : Scalar T} {LA : np.LinAlg T}.
Variable cls : EKF.subclass T.


(** C3, as the code has it: [step] does not look at the length of [z]
    before it computes.  With [len(z)] different from [m] and from 1, the
    call fails in the update phase, at the subtraction or at the product
    that follows it ([ValueError], or [TypeError] for an empty [z]); by
    then [f] and [h] have been called and the predict phase has run, so
    [x] holds [f(x)] and [P_pre], [P_post] hold [F P_post Ft + Q]. *)
Theorem step_wrong_length (n m : nat) (o : EKF.t T) (out : EKF.log T)
  (z : list T) (ff hh : np.pydata T -> np.pydata T)
  (ax1 ahx aSi : np.ndarray T) :
  EKF.shaped n m o ->
  EKF.f cls = Some ff -> EKF.h cls = Some hh ->
  ff (data (EKF.x o)) = Some ax1 ->
  hh (Some ax1) = Some ahx -> np.shape ahx = (m, 1) ->
  0 < m ->
  let aPpre :=
    EKF.predict_cov (arr (EKF.F o)) (arr (EKF.P_post o)) (arr (EKF.Q o)) in
  let aS := EKF.innovation_cov (arr (EKF.H o)) aPpre (arr (EKF.R o)) in
  np.linalg_inv aS = Some aSi ->
  length z <> m -> length z <> 1 ->
  exists e,
    (e = ValueError \/ e = TypeError) /\
    EKF.step cls z (o, out)
    = (Raise e,
       (EKF.predicted o (Some ax1),
        out ++ [Call m_f (data (EKF.x o)); Call m_h (Some ax1)])).
Proof.
  intros So Ef Eh Efx Ehx Shx Hm aPpre aS Einv Lz Lz1.
  destruct (shaped_arrays So)
    as (pp & ax & aP & aF & aH & aQ & aR & aI & -> &
        [] & [] & [] & [] & [] & [] & []).
  pose proof Einv as Si. apply np.linalg_inv_shape in Si.
  unfold np.shape in Shx, Si. injection Shx as ? ?. injection Si as Si1 Si2.
  subst aPpre aS. unfold EKF.predicted.
  simpl EKF.x in *; simpl EKF.F in *; simpl EKF.H in *;
    simpl EKF.P_post in *; simpl EKF.Q in *; simpl EKF.R in *.
  unfold arr in *; rewrite ?data_mat in *. simpl in Si1, Si2.
  unfold EKF.innovation_cov, EKF.predict_cov in *.
  unfold EKF.step. glue. rewrite Ef, ?data_mat, Efx.
  run. erewrite invert_returns by exact Einv. run.
  destruct z as [|z0 z'].
  - exists TypeError. split; [now right|].
    rewrite fromTuple_empty. glue. rewrite Eh, ?data_mat, Ehx. glue.
    rewrite fromData_Some, sub_none_nonempty by lia. glue.
    rewrite <- app_assoc. reflexivity.
  - exists ValueError. split; [now left|].
    rewrite fromTuple_column by discriminate.
    glue. rewrite Eh, ?data_mat, Ehx. glue.
    unfold _Matrix.__sub__ at 1, np.binop, np.broadcast.
    rewrite fromData_Some, !data_mat.
    change (np.nrows (np.column (z0 :: z'))) with (length (z0 :: z')).
    change (np.ncols (np.column (z0 :: z'))) with 1.
    unfold np.bdim at 1.
    destruct (Nat.eqb_spec (length (z0 :: z')) (np.nrows ahx)); [congruence|].
    destruct (Nat.eqb_spec (length (z0 :: z')) 1); [congruence|].
    destruct (Nat.eqb_spec (np.nrows ahx) 1) as [E1|E1].
    + replace (np.ncols ahx) with 1 by congruence.
      rewrite bdim_same. cbn [rbind]. glue.
      unfold _Matrix.__mul__ at 1, np.dot.
      cbn [data mat np.ncols np.nrows np.matmul np.tab].
      destruct (Nat.eqb_spec (np.ncols aSi) (length (z0 :: z'))); [congruence|].
      cbn [rbind]. glue. rewrite <- app_assoc. reflexivity.
    + cbn [rbind]. glue. rewrite <- app_assoc. reflexivity.
Qed.

End Outcomes.

(** ** The shapes after a step *)

Section Shapes.
Context {T : Type} {ST : Scalar T} {LA : np.LinAlg T}.
Variable cls : EKF.subclass T.

Lemma sub_mat_cases (a b : np.ndarray T) :
  _Matrix.__sub__ (mat a) (mat b) = Raise ValueError \/
  exists d, _Matrix.__sub__ (mat a) (mat b) = Ret (mat d) /\
            np.bdim (np.nrows a) (np.nrows b) = Some (np.nrows d) /\
            np.bdim (np.ncols a) (np.ncols b) = Some (np.ncols d).
Proof.
  unfold _Matrix.__sub__, np.binop, np.broadcast; rewrite !data_mat.
  destruct (np.bdim (np.nrows a) (np.nrows b)) as [r|]; [|now left].
  destruct (np.bdim (np.ncols a) (np.ncols b)) as [c|]; [|now left].
  right. eexists; split; [reflexivity|]. now split.
Qed.

Lemma sub_none_cases (b : np.ndarray T) :
  _Matrix.__sub__ {| data := None |} (mat b) = Raise TypeError \/
  exists d, _Matrix.__sub__ {| data := None |} (mat b) = Ret (mat d) /\
            np.ncols d = np.ncols b.
Proof.
  unfold _Matrix.__sub__, np.binop, np.with_none; rewrite data_mat. cbn [data].
  destruct (np.is_empty b); [|now left].
  right. eexists; split; reflexivity.
Qed.

Lemma mul_mat_cases (a b : np.ndarray T) :
  _Matrix.__mul__ (mat a) (_Matrix.Mat (mat b))
  = if Nat.eqb (np.ncols a) (np.nrows b) then Ret (mat (np.matmul a b))
    else Raise ValueError.
Proof.
  unfold _Matrix.__mul__, np.dot; rewrite !data_mat.
  now destruct (Nat.eqb (np.ncols a) (np.nrows b)).
Qed.

Lemma shape_of_mat (a : np.ndarray T) (r c : nat) :
  np.nrows a = r -> np.ncols a = c -> np.shape_of (data (mat a)) = Some (r, c).
Proof. intros <- <-. reflexivity. Qed.

(** A step that stops with an exception leaves an instance of the same
    shapes. *)
Ltac stopped :=
  intros [= <- <-]; cbn [fst];
  split; [repeat split; apply shape_of_mat; simpl; congruence
         | intros ? [=]].

(** Every step, whatever its outcome, leaves an instance of the same
    shapes; one that returns, returns [n] elements. *)
Lemma step_shapes (n m : nat) (o : EKF.t T) (out : EKF.log T) (z : list T)
  (r : result (list T)) (s' : EKF.state T) :
  EKF.shaped n m o -> EKF.model_shaped cls n m ->
  EKF.step cls z (o, out) = (r, s') ->
  EKF.shaped n m (fst s') /\ forall v, r = Ret v -> length v = n.
Proof.
  intros So ((ff & Ef & Cf) & _ & (hh & Eh & Ch) & _).
  destruct (shaped_arrays So)
    as (pp & ax & aP & aF & aH & aQ & aR & aI & -> &
        [Hx1 Hx2] & [] & [] & [] & [] & [] & []).
  destruct (shape_of_Some _ (Cf _ (shape_of_mat ax Hx1 Hx2)))
    as (ax1 & Efx & Hx3 & Hx4).
  destruct (shape_of_Some _ (Ch _ (shape_of_mat ax1 Hx3 Hx4)))
    as (ahx & Ehx & Hh1 & Hh2).
  rewrite data_mat in Efx, Ehx.
  unfold EKF.step. glue. rewrite Ef, ?data_mat, Efx. run.
  match goal with |- context [_Matrix.invert (mat ?S)] =>
    destruct (np.linalg_inv S) as [aSi|] eqn:Einv end.
  2:{ erewrite invert_exits by exact Einv. stopped. }
  erewrite invert_returns by exact Einv.
  pose proof Einv as Si. apply np.linalg_inv_shape in Si.
  unfold np.shape in Si; simpl in Si. injection Si as Si1 Si2.
  run.
  assert (Hsub : forall zv,
            _Vector.fromTuple z = Ret zv ->
            (exists e, _Matrix.__sub__ zv (mat ahx) = Raise e) \/
            exists d, _Matrix.__sub__ zv (mat ahx) = Ret (mat d) /\
                      np.ncols d = 1).
  { intros zv Ez. destruct z as [|z0 z'].
    - rewrite fromTuple_empty in Ez. injection Ez as <-.
      destruct (sub_none_cases ahx) as [E | (d & E & Hd)].
      + left. eexists. exact E.
      + right. exists d. split; [exact E | congruence].
    - rewrite fromTuple_column in Ez by discriminate. injection Ez as <-.
      destruct (sub_mat_cases (np.column (z0 :: z')) ahx)
        as [E | (d & E & _ & Hd)].
      + left. eexists. exact E.
      + right. exists d. split; [exact E|].
        simpl in Hd. rewrite Hh2 in Hd. now injection Hd as <-. }
  destruct (fromTuple_returns z) as (zv & Ez). rewrite Ez.
  glue. rewrite Eh, ?data_mat, Ehx. glue. rewrite fromData_Some.
  destruct (Hsub zv Ez) as [(e & Es) | (d & Es & Hd)]; rewrite Es; glue;
    [stopped|].
  rewrite mul_mat_cases.
  match goal with |- context [Nat.eqb ?p ?q] =>
    destruct (Nat.eqb_spec p q) as [Ed|Ed] end; glue; [|stopped].
  simpl in Ed.
  run. rewrite asarray_mat by (simpl; lia). glue.
  intros [= <- <-]; cbn [fst]. split.
  - repeat split; apply shape_of_mat; simpl; congruence.
  - intros v [= <-]. rewrite length_flat. simpl. congruence.
Qed.

(** What the constructor returns has the shapes of its dimensions. *)
Lemma init_shaped (n m : Z) (pval qval rval : T) (out out' : EKF.log T)
  (o : EKF.t T) :
  (0 < n)%Z -> (0 < m)%Z ->
  EKF.model_shaped cls (Z.to_nat n) (Z.to_nat m) ->
  EKF.__init__ cls n m pval qval rval out = (Ret o, out') ->
  EKF.shaped (Z.to_nat n) (Z.to_nat m) o.
Proof.
  intros Hn Hm (_ & (gF & EF & CF) & _ & (gH & EH & CH)) E.
  destruct (init_returns cls pval qval rval out Hn (Z.lt_le_incl _ _ Hm) EF EH)
    as (x0 & aP & aQ & aR & aI & E' & [Sx _] & [SP _] & [SQ _] & [SR _] & [SI _]).
  rewrite E' in E. injection E as <- _.
  assert (Sx0 : np.shape_of (data (mat x0)) = Some (Z.to_nat n, 1))
    by (simpl; unfold np.shape_of; simpl; now rewrite Sx).
  unfold EKF.shaped; simpl.
  repeat split;
    try (unfold np.shape_of; simpl; congruence).
  - apply CF, Sx0.
  - apply CH, Sx0.
Qed.

Lemma visited_shaped (n m : nat) (s0 s : EKF.state T) :
  EKF.model_shaped cls n m ->
  EKF.shaped n m (fst s0) ->
  EKF.visited cls s0 s -> EKF.shaped n m (fst s).
Proof.
  intros Hc H0 Hr. induction Hr as [|s z r s' _ IH E]; [exact H0|].
  destruct s as [o out]. simpl in IH.
  exact (proj1 (@step_shapes _ _ o out z r s' IH Hc E)).
Qed.

(** C7: for a filter constructed with [n >= 1] and [m >= 1] over methods
    that keep their shape contract, in every state that calls of [step]
    have led to, whether they returned or raised, a call of [step] that
    returns leaves an [x] of shape [(n, 1)] and a [P_post] of shape
    [(n, n)], and returns [n] elements. *)
Theorem step_shape_invariant (py : python) (n m : Z) (pval qval rval : T)
  (out0 : EKF.log T) (s0 s s' : EKF.state T) (z v : list T) :
  (1 <= n)%Z -> (1 <= m)%Z ->
  EKF.model_shaped cls (Z.to_nat n) (Z.to_nat m) ->
  EKF.new cls py n m pval qval rval out0 = (Ret (fst s0), snd s0) ->
  EKF.visited cls s0 s ->
  EKF.step cls z s = (Ret v, s') ->
  np.shape_of (data (EKF.x (fst s'))) = Some (Z.to_nat n, 1) /\
  np.shape_of (data (EKF.P_post (fst s'))) = Some (Z.to_nat n, Z.to_nat n) /\
  length v = Z.to_nat n.
Proof.
  intros Hn Hm Hc E0 Hr E.
  assert (E0' : EKF.__init__ cls n m pval qval rval out0 = (Ret (fst s0), snd s0)).
  { unfold EKF.new in E0. destruct py; [|exact E0].
    destruct (EKF.is_abstract cls); [discriminate | exact E0]. }
  assert (S0 : EKF.shaped (Z.to_nat n) (Z.to_nat m) (fst s0))
    by (eapply init_shaped; eauto; lia).
  pose proof (visited_shaped Hc S0 Hr) as Ss.
  destruct s as [o out]. simpl in Ss.
  destruct (@step_shapes _ _ o out z (Ret v) s' Ss Hc E) as [(Sx & SP & _) Lv].
  auto.
Qed.

End Shapes.

(** ** Concrete runs *)

Section Runs.
Local Open Scope Q_scope.

Lemma Scalar1_start_constructed (pval qval rval : Q) :
  EKF.new Scalar1.model Python3 1 1 pval qval rval []
  = (Ret (fst (Scalar1.start pval qval rval)), snd (Scalar1.start pval qval rval)).
Proof. reflexivity. Qed.

Lemma Scalar1_model_shaped : EKF.model_shaped Scalar1.model 1 1.
Proof.
  repeat split; eexists; (split; [reflexivity|]); intros d Hd;
    first [exact Hd | reflexivity].
Qed.

Lemma Scalar1_start_shaped (pval qval rval : Q) :
  EKF.shaped 1 1 (fst (Scalar1.start pval qval rval)).
Proof. repeat split. Qed.

Lemma Filter32_start_constructed :
  EKF.new Filter32.model Python3 3 2 1 1 1 []
  = (Ret (fst Filter32.start), snd Filter32.start).
Proof. reflexivity. Qed.

Lemma Filter32_start_shaped : EKF.shaped 3 2 (fst Filter32.start).
Proof. repeat split. Qed.

(** One step of the scalar filter built with [pval = rval = 1/10] and
    [qval = 0], on the measurement 1. *)
Lemma step_effects_scalar :
  let o := fst (Scalar1.start (1 # 10) 0 (1 # 10)) in
  let out := snd (Scalar1.start (1 # 10) 0 (1 # 10)) in
  let aPpre :=
    EKF.predict_cov (arr (EKF.F o)) (arr (EKF.P_post o)) (arr (EKF.Q o)) in
  let aG := EKF.gain aPpre (arr (EKF.H o)) (np.mk_nd 1 1 [[5]]) in
  let ax2 := EKF.update_state (np.mk_nd 1 1 [[0]]) aG [1] (np.mk_nd 1 1 [[0]]) in
  EKF.step Scalar1.model [1] (o, out)
  = (Ret (np.flat ax2),
     ({| EKF.P_pre := Some (mat aPpre);
         EKF.x := mat ax2;
         EKF.P_post := mat (EKF.update_cov (arr (EKF.I o)) aG (arr (EKF.H o)) aPpre);
         EKF.F := EKF.F o; EKF.H := EKF.H o; EKF.Q := EKF.Q o;
         EKF.R := EKF.R o; EKF.I := EKF.I o |},
      out ++ [Call m_f (data (EKF.x o)); Call m_h (Some (np.mk_nd 1 1 [[0]]))])) /\
  length (np.flat ax2) = 1%nat.
Proof.
  apply (@step_effects Q Scalar_Q LinAlg_Q Scalar1.model 1 1
           (fst (Scalar1.start (1 # 10) 0 (1 # 10)))
           (snd (Scalar1.start (1 # 10) 0 (1 # 10))) [1]
           (fun d => d) (fun d => d)
           (np.mk_nd 1 1 [[0]]) (np.mk_nd 1 1 [[0]]) (np.mk_nd 1 1 [[5]]));
    first [ reflexivity | lia | repeat split ].
Defined.



(** C3 as stated fails, on the filter with [n = 3] and [m = 2]: a
    measurement of one element is accepted, and the step returns; one of
    three elements makes the step raise, but only after [x] and [P_post]
    have changed. *)
Lemma wrong_length_not_detected :
  EKF.new Filter32.model Python3 3 2 1 1 1 []
  = (Ret (fst Filter32.start), snd Filter32.start) /\
  (exists s', EKF.step Filter32.model [5] Filter32.start
              = (Ret [33 # 9; 33 # 9; 9 # 9], s')) /\
  (exists o' out',
     EKF.step Filter32.model [1; 2; 3] Filter32.start
     = (Raise ValueError, (o', out')) /\
     EKF.x (fst Filter32.start) = mat (np.mk_nd 3 1 [[0]; [0]; [0]]) /\
     EKF.x o' = mat (np.mk_nd 3 1 [[1]; [1]; [1]]) /\
     EKF.P_post (fst Filter32.start)
     = mat (np.mk_nd 3 3 [[1; 0; 0]; [0; 1; 0]; [0; 0; 1]]) /\
     EKF.P_post o'
     = mat (np.mk_nd 3 3 [[2; 0; 0]; [0; 2; 0]; [0; 0; 2]])).
Proof.
  split; [reflexivity|]. split.
  - eexists. vm_compute. reflexivity.
  - do 2 eexists. repeat split; vm_compute; reflexivity.
Qed.

(** The three-element measurement, through the theorem. *)
Lemma step_wrong_length_3_for_2 :
  exists e,
    (e = ValueError \/ e = TypeError) /\
    EKF.step Filter32.model [1; 2; 3] Filter32.start
    = (Raise e,
       (EKF.predicted (fst Filter32.start) (Some (np.mk_nd 3 1 [[1]; [1]; [1]])),
        snd Filter32.start
        ++ [Call m_f (data (EKF.x (fst Filter32.start)));
            Call m_h (Some (np.mk_nd 3 1 [[1]; [1]; [1]]))])).
Proof.
  apply (@step_wrong_length Q Scalar_Q LinAlg_Q Filter32.model 3 2
           (fst Filter32.start) (snd Filter32.start) [1; 2; 3]
           (option_map (fun a =>
              np.tab (np.nrows a) (np.ncols a) (fun i j => np.get a i j + 1)))
           (option_map (fun a => np.tab 2 1 (fun i j => np.get a i j)))
           (np.mk_nd 3 1 [[1]; [1]; [1]]) (np.mk_nd 2 1 [[1]; [1]])
           (np.mk_nd 2 2 [[1 # 3; 0]; [0; 1 # 3]]));
    first [ reflexivity | lia | discriminate | repeat split ].
Defined.

(** The frame of the first step of the scalar filter. *)
Lemma step_frame_scalar :
  let s := Scalar1.start (1 # 10) 0 (1 # 10) in
  let s' := snd (EKF.step Scalar1.model [1] s) in
  EKF.F (fst s') = EKF.F (fst s) /\ EKF.H (fst s') = EKF.H (fst s) /\
  EKF.Q (fst s') = EKF.Q (fst s) /\ EKF.R (fst s') = EKF.R (fst s) /\
  EKF.I (fst s') = EKF.I (fst s) /\
  exists l, snd s' = snd s ++ l /\
            forall name arg, In (Call name arg) l -> name = m_f \/ name = m_h.
Proof.
  intros s s'.
  apply (@step_frame Q Scalar_Q LinAlg_Q Scalar1.model [1] s s'
           (fst (EKF.step Scalar1.model [1] s))).
  vm_compute. reflexivity.
Defined.

(** The scalar filter: a step on a measurement of two elements raises
    [ValueError]; the caller goes on, and the next step returns. *)
Lemma step_shape_invariant_scalar :
  let s0 := Scalar1.start (1 # 10) 0 (1 # 10) in
  let s1 := snd (EKF.step Scalar1.model [1; 2] s0) in
  let s' := snd (EKF.step Scalar1.model [1] s1) in
  fst (EKF.step Scalar1.model [1; 2] s0) = Raise ValueError /\
  np.shape_of (data (EKF.x (fst s'))) = Some (1%nat, 1%nat) /\
  np.shape_of (data (EKF.P_post (fst s'))) = Some (1%nat, 1%nat) /\
  length [5 # 10] = 1%nat.
Proof.
  intros s0 s1 s'. split; [reflexivity|].
  apply (@step_shape_invariant Q Scalar_Q LinAlg_Q Scalar1.model Python3
           1%Z 1%Z (1 # 10) 0 (1 # 10) [] s0 s1 s' [1] [5 # 10]).
  - lia.
  - lia.
  - repeat split; eexists; (split; [reflexivity|]); intros d Hd;
      first [exact Hd | reflexivity].
  - reflexivity.
  - apply (@EKF.visit_step Q Scalar_Q LinAlg_Q Scalar1.model s0 s0 [1; 2]
             (Raise ValueError) s1).
    + apply EKF.visit_init.
    + vm_compute. reflexivity.
  - vm_compute. reflexivity.
Defined.

End Runs.

(** ** Methods left abstract *)

Section Abstract.
Context {T : Type} {ST : Scalar T} {LA : np.LinAlg T}.
Variable cls : EKF.subclass T.

(** Under Python 2 a class with an abstract method is not instantiated. *)
Lemma python2_refuses_abstract (n m : Z) (pval qval rval : T) (out : EKF.log T) :
  EKF.is_abstract cls = true ->
  EKF.new cls Python2 n m pval qval rval out = (Raise TypeError, out).
Proof. intros E. unfold EKF.new. now rewrite E. Qed.

(** Under Python 3 the constructor runs, and fails if it reaches a call
    of a method that is left abstract: [getF], then [getH]. *)
Lemma python3_missing_jacobian (n m : Z) (pval qval rval : T) (out : EKF.log T) :
  (0 <= n)%Z ->
  EKF.getF cls = None \/ EKF.getH cls = None ->
  exists out',
    EKF.new cls Python3 n m pval qval rval out = (Raise NotImplementedError, out').
Proof.
  intros Hn E. unfold EKF.new, EKF.__init__, mbind, lift, mret, EKF.call.
  rewrite !eye_default by lia. simpl.
  destruct (EKF.getF cls); [|now eexists].
  destruct E as [E|E]; [discriminate|]. rewrite E. now eexists.
Qed.

(** A step on an instance whose class leaves [f] abstract raises
    [NotImplementedError] at its first statement. *)
Lemma step_missing_f (z : list T) (o : EKF.t T) (out : EKF.log T) :
  EKF.f cls = None ->
  EKF.step cls z (o, out)
  = (Raise NotImplementedError, (o, out ++ [Call m_f (data (EKF.x o))])).
Proof.
  intros E. unfold EKF.step. glue. now rewrite E.
Qed.

End Abstract.

(** C4, on the code run by Python 3: a class that defines [getF] and
    [getH] only is constructed without error, and the missing [f] shows
    at the first step. *)
Theorem missing_f_surfaces_at_step :
  EKF.new Scalar1.jacobians_only Python3 1 1 1%Q 1%Q 1%Q []
  = (Ret (fst (Scalar1.start 1 1 1)), snd (Scalar1.start 1 1 1)) /\
  EKF.step Scalar1.jacobians_only [5%Q] (Scalar1.start 1 1 1)
  = (Raise NotImplementedError,
     (fst (Scalar1.start 1 1 1),
      snd (Scalar1.start 1 1 1)
      ++ [Call m_f (Some (np.mk_nd 1 1 [[0%Q]]))])).
Proof. split; reflexivity. Qed.

(** ** The covariance of the scalar filter *)

Section ScalarCovariance.
Local Open Scope Q_scope.
Context {LA : np.LinAlg Q}.
Hypothesis Hexact : Scalar1.exact_on_scalars.

(** One step of the scalar filter with [qval = 0]: the covariance [p]
    becomes [p rval / (p + rval)]. *)
Lemma scalar_step (pp : option (_Matrix Q)) (xv p rval c : Q) (out : EKF.log Q) :
  0 < p -> 0 < rval ->
  exists pp' xv' p' out',
    EKF.step Scalar1.model [c] (Scalar1.instance pp xv p 0 rval, out)
    = (Ret [xv'], (Scalar1.instance pp' xv' p' 0 rval, out')) /\
    p' == p * rval / (p + rval).
Proof.
  intros Hp Hr.
  set (o := Scalar1.instance pp xv p 0 rval).
  set (aPpre :=
         EKF.predict_cov (arr (EKF.F o)) (arr (EKF.P_post o)) (arr (EKF.Q o))).
  set (aS := EKF.innovation_cov (arr (EKF.H o)) aPpre (arr (EKF.R o))).
  assert (Hs : ~ np.get aS 0 0 == 0).
  { cbv -[Qplus Qmult Qminus Qinv Qeq Qlt Qle]. lra. }
  destruct (Hexact Hs) as (t & Einv & Ht).
  destruct (@step_returns Q Scalar_Q LA Scalar1.model 1 1 o out [c]
              (fun d => d) (fun d => d)
              (np.mk_nd 1 1 [[xv]]) (np.mk_nd 1 1 [[xv]]) (np.mk_nd 1 1 [[t]]))
    as [E _]; try reflexivity; try lia; try (repeat split; fail).
  { exact Einv. }
  rewrite E. clear E.
  do 4 eexists. split; [reflexivity|].
  cbv -[Qplus Qmult Qminus Qinv Qeq Qlt Qle Qdiv] in Ht |- *.
  assert (Et : t == 1 / (p + rval)).
  { apply (Qmult_inj_r _ _ (p + rval)); [lra|].
    transitivity 1; [rewrite <- Ht; ring | field; lra]. }
  rewrite Et. field. lra.
Qed.

(** The reciprocal of the new covariance, and its place under the old. *)
Lemma scalar_step_bounds (p p' rval : Q) :
  0 < p -> 0 < rval -> p' == p * rval / (p + rval) ->
  0 < p' /\ p' <= p /\ / p' == / p + / rval.
Proof.
  intros Hp Hr E.
  assert (Hpos : 0 < p * rval / (p + rval)).
  { apply Qlt_shift_div_l; [lra|]. rewrite Qmult_0_l. nra. }
  split; [now rewrite E|]. split.
  - rewrite E. apply Qle_shift_div_r; [lra | nra].
  - rewrite E. field. repeat split; lra.
Qed.

(** After [k] steps: the covariance is positive, and its reciprocal is
    [1 / pval + k / rval]. *)
Lemma scalar_steps (pval rval c : Q) (k : nat) :
  0 < pval -> 0 < rval ->
  exists pp xv p out,
    EKF.steps Scalar1.model k [c] (Scalar1.start pval 0 rval)
    = Some (Scalar1.instance pp xv p 0 rval, out) /\
    0 < p /\ / p == / pval + inject_Z (Z.of_nat k) * / rval.
Proof.
  intros Hp Hr. induction k as [|k IH].
  - exists None, 0, (1 * pval), (snd (Scalar1.start pval 0 rval)).
    split; [reflexivity|]. split; [lra|].
    simpl. field. lra.
  - destruct IH as (pp & xv & p & out & E & Hpk & Hinv).
    destruct (scalar_step pp xv c out Hpk Hr) as (pp' & xv' & p' & out' & E' & Ep).
    destruct (scalar_step_bounds Hpk Hr Ep) as (Hp' & _ & Hinv').
    exists pp', xv', p', out'. split.
    + cbn [EKF.steps]. rewrite E, E'. reflexivity.
    + split; [exact Hp'|].
      rewrite Hinv', Hinv, Nat2Z.inj_succ, <- Z.add_1_r, inject_Z_plus.
      ring.
Qed.

Lemma P_post_after_steps (pval rval c : Q) (k : nat)
  (pp : option (_Matrix Q)) (xv p : Q) (out : EKF.log Q) :
  EKF.steps Scalar1.model k [c] (Scalar1.start pval 0 rval)
  = Some (Scalar1.instance pp xv p 0 rval, out) ->
  Scalar1.P_post_after pval rval c k = Some p.
Proof.
  intros E. unfold Scalar1.P_post_after, Scalar1.init.
  rewrite Scalar1_start_constructed.
  change (fst (Scalar1.start pval 0 rval), snd (Scalar1.start pval 0 rval))
    with (Scalar1.start pval 0 rval).
  now rewrite E.
Qed.

(** The covariance after [k] steps, and after one more. *)
Lemma scalar_consecutive (pval rval c : Q) (k : nat) :
  0 < pval -> 0 < rval ->
  exists p p',
    Scalar1.P_post_after pval rval c k = Some p /\
    Scalar1.P_post_after pval rval c (S k) = Some p' /\
    0 < p' /\ p' <= p /\
    / p == / pval + inject_Z (Z.of_nat k) * / rval.
Proof.
  intros Hp Hr.
  destruct (scalar_steps c k Hp Hr) as (pp & xv & p & out & E & Hpk & Hinv).
  destruct (scalar_step pp xv c out Hpk Hr) as (pp' & xv' & p' & out' & E' & Ep).
  destruct (scalar_step_bounds Hpk Hr Ep) as (Hp' & Hle & _).
  exists p, p'. split; [eapply P_post_after_steps; exact E|].
  split; [|now repeat split].
  eapply P_post_after_steps. cbn [EKF.steps]. rewrite E, E'. reflexivity.
Qed.


End ScalarCovariance.

(** The exact inverse is exact on 1x1 arrays. *)
Lemma GaussJordan_exact_on_scalars : @Scalar1.exact_on_scalars LinAlg_Q.
Proof.
  intros s Hs. exists (Qred (/ s * 1)). split.
  - unfold np.linalg_inv, LinAlg_Q, GaussJordan.inv; simpl.
    unfold np.get; simpl.
    destruct (Qeq_bool s 0) eqn:E; [|reflexivity].
    apply Qeq_bool_eq in E. contradiction.
  - rewrite Qred_correct. field. exact Hs.
Qed.

Section Binary64.
Import PrimFloat.
Import Float64.

(** In binary64, with [pval = 0.1] and [rval = 1e16]: the gain
    [P / (P + rval)] is [1e-17], [1 - 1e-17] rounds to 1, and the
    covariance is left as it was, whatever the state. *)
Lemma binary64_step_stalls (pp : option (_Matrix PrimFloat.float))
  (xv : PrimFloat.float) (out : EKF.log PrimFloat.float) :
  exists pp' xv' out',
    EKF.step Float64.model [1%float]
      (Float64.instance pp xv 0x1.999999999999ap-4%float 0%float 1e16%float, out)
    = (Ret [xv'],
       (Float64.instance pp' xv' 0x1.999999999999ap-4%float 0%float 1e16%float,
        out')).
Proof.
  set (o := Float64.instance pp xv 0x1.999999999999ap-4%float 0%float 1e16%float).
  destruct (@step_returns PrimFloat.float Float64.Scalar_float Float64.LinAlg_float
              Float64.model 1 1 o out [1%float]
              (fun d => d) (fun d => d)
              (np.mk_nd 1 1 [[xv]]) (np.mk_nd 1 1 [[xv]])
              (np.mk_nd 1 1 [[PrimFloat.div 1 1e16]]))
    as [E _]; try reflexivity; try lia; try (repeat split; fail).
  rewrite E. do 3 eexists. reflexivity.
Qed.

Lemma binary64_steps_stall (k : nat) :
  exists pp xv out,
    EKF.steps Float64.model k [1%float]
      (Float64.instance None 0%float 0x1.999999999999ap-4%float 0%float 1e16%float,
       [Call m_getF (Some (np.mk_nd 1 1 [[0%float]]));
        Call m_getH (Some (np.mk_nd 1 1 [[0%float]]))])
    = Some (Float64.instance pp xv 0x1.999999999999ap-4%float 0%float 1e16%float,
            out).
Proof.
  induction k as [|k IH].
  - now do 3 eexists.
  - destruct IH as (pp & xv & out & E).
    destruct (binary64_step_stalls pp xv out) as (pp' & xv' & out' & E').
    exists pp', xv', out'. cbn [EKF.steps]. now rewrite E, E'.
Qed.


End Binary64.


(** * Further properties of the linear-algebra classes *)

Section MatrixFacts.
Context {T : Type} {ST : Scalar T} {LA : np.LinAlg T}.

Lemma tab_get (a : np.ndarray T) :
  np.wf a -> np.tab (np.nrows a) (np.ncols a) (np.get a) = a.
Proof.
  destruct a as [r c l]. unfold np.wf, np.tab, np.get; simpl.
  intros [Hl Hr]. f_equal.
  apply nth_ext with (d := []) (d' := []).
  - now rewrite length_map, length_seq.
  - intros i Hi. rewrite length_map, length_seq in Hi.
    rewrite (nth_tabulate (fun i => map (fun j => nth j (nth i l []) szero) (seq 0 c))
               [] Hi).
    assert (Hc : length (nth i l []) = c).
    { rewrite Forall_forall in Hr. apply Hr, nth_In. lia. }
    apply nth_ext with (d := szero) (d' := szero).
    + now rewrite length_map, length_seq.
    + intros j Hj. rewrite length_map, length_seq in Hj.
      now rewrite (nth_tabulate (fun j => nth j (nth i l []) szero) szero Hj).
Qed.

Lemma tab_wf (r c : nat) (g : nat -> nat -> T) : np.wf (np.tab r c g).
Proof.
  split; simpl.
  - now rewrite length_map, length_seq.
  - apply Forall_forall. intros x Hx. apply in_map_iff in Hx.
    destruct Hx as (i & <- & _). now rewrite length_map, length_seq.
Qed.

(** [transpose] swaps the shape and the indices; applied twice it gives
    the matrix back; on a matrix without an array it raises
    [AttributeError]. *)
Theorem transpose_involution (a : np.ndarray T) :
  np.wf a ->
  exists b,
    _Matrix.transpose (mat a) = Ret (mat b) /\
    np.shape b = (np.ncols a, np.nrows a) /\
    (forall i j, i < np.ncols a -> j < np.nrows a -> np.get b i j = np.get a j i) /\
    _Matrix.transpose (mat b) = Ret (mat a).
Proof.
  intros Ha. exists (np.transpose a).
  split; [reflexivity|]. split; [reflexivity|]. split.
  - intros i j Hi Hj. unfold np.transpose. now rewrite get_tab.
  - rewrite transpose_mat. do 2 f_equal.
    unfold np.transpose at 1. simpl np.nrows; simpl np.ncols.
    rewrite <- (tab_get Ha) at 3.
    apply tab_ext. intros i j Hi Hj.
    unfold np.transpose. now rewrite get_tab.
Qed.

(** [fromTuple] then [asarray] gives the tuple back, for a tuple that
    is not empty. *)
Theorem fromTuple_asarray (t : list T) :
  t <> [] ->
  exists v,
    _Vector.fromTuple t = Ret v /\
    np.shape_of (data v) = Some (length t, 1) /\
    _Matrix.asarray v = Ret t.
Proof.
  intros Hne. exists (mat (np.column t)).
  split; [now apply fromTuple_column|]. split; [reflexivity|].
  rewrite asarray_mat by (simpl; lia). f_equal.
  unfold np.flat, np.column; simpl np.nrows.
  apply nth_ext with (d := szero) (d' := szero).
  - now rewrite length_map, length_seq.
  - intros i Hi. rewrite length_map, length_seq in Hi.
    rewrite (nth_tabulate
               (fun i => np.get (np.tab (length t) 1 (fun i _ => nth i t szero)) i 0)
               szero Hi).
    rewrite get_tab by lia. reflexivity.
Qed.

(** The vector of the empty tuple holds no array.  Reading it back
    raises [TypeError]; so does subtracting from it, or adding it to, a
    matrix whose array has an element (or that holds no array itself);
    against an array without elements the result is an array of that
    shape, without elements. *)
Theorem fromTuple_empty_unusable (b : np.ndarray T) :
  exists v,
    _Vector.fromTuple (@nil T) = Ret v /\
    data v = None /\
    _Matrix.asarray v = Raise TypeError /\
    _Matrix.__sub__ v {| data := None |} = Raise TypeError /\
    (np.is_empty b = false ->
       _Matrix.__sub__ v (mat b) = Raise TypeError /\
       _Matrix.__add__ (mat b) v = Raise TypeError) /\
    (np.is_empty b = true ->
       exists d, _Matrix.__sub__ v (mat b) = Ret (mat d) /\
                 _Matrix.__add__ (mat b) v = Ret (mat d) /\
                 np.shape d = np.shape b).
Proof.
  exists {| data := None |}.
  do 4 (split; [reflexivity|]).
  unfold _Matrix.__sub__, _Matrix.__add__, np.binop, np.with_none.
  rewrite data_mat. cbn [data].
  split; intros ->.
  - now split.
  - eexists. repeat split.
Qed.

End MatrixFacts.

(** [[[1; 2]; [3; 4]; [5; 6]]] transposed twice. *)
Lemma transpose_involution_3x2 :
  let a := np.mk_nd 3 2 [[1%Q; 2%Q]; [3%Q; 4%Q]; [5%Q; 6%Q]] in
  exists b,
    _Matrix.transpose (mat a) = Ret (mat b) /\
    np.shape b = (2, 3) /\
    (forall i j, i < 2 -> j < 3 -> np.get b i j = np.get a j i) /\
    _Matrix.transpose (mat b) = Ret (mat a).
Proof.
  intros a.
  apply (@transpose_involution Q Scalar_Q a).
  split; [reflexivity | repeat constructor].
Defined.

(** The empty tuple against a 2x1 array and against a 0x1 array. *)
Lemma fromTuple_empty_unusable_2x1 :
  let v := {| data := None |} in
  (_Matrix.__sub__ v (mat (np.mk_nd 2 1 [[1%Q]; [2%Q]])) = Raise TypeError /\
   _Matrix.__add__ (mat (np.mk_nd 2 1 [[1%Q]; [2%Q]])) v = Raise TypeError) /\
  exists d, _Matrix.__sub__ v (mat (np.mk_nd (T := Q) 0 1 [])) = Ret (mat d) /\
            _Matrix.__add__ (mat (np.mk_nd (T := Q) 0 1 [])) v = Ret (mat d) /\
            np.shape d = (0, 1).
Proof.
  intros v. split.
  - destruct (@fromTuple_empty_unusable Q Scalar_Q (np.mk_nd 2 1 [[1%Q]; [2%Q]]))
      as (v' & E & _ & _ & _ & H & _).
    injection E as <-. apply H. reflexivity.
  - destruct (@fromTuple_empty_unusable Q Scalar_Q (np.mk_nd 0 1 []))
      as (v' & E & _ & _ & _ & _ & H).
    injection E as <-. apply H. reflexivity.
Defined.

(** The tuple [(1, 2, 3)]. *)
Lemma fromTuple_asarray_123 :
  exists v,
    _Vector.fromTuple [1%Q; 2%Q; 3%Q] = Ret v /\
    np.shape_of (data v) = Some (3, 1) /\
    _Matrix.asarray v = Ret [1%Q; 2%Q; 3%Q].
Proof.
  apply (@fromTuple_asarray Q Scalar_Q [1%Q; 2%Q; 3%Q]). discriminate.
Defined.

(** ** Arithmetic: when it fails, and what broadcasting does *)

Section Arithmetic.
Context {T : Type} {ST : Scalar T} {LA : np.LinAlg T}.

(** The matrix product returns exactly when the columns of the left
    operand are as many as the rows of the right one, and then has the
    rows of the left and the columns of the right; otherwise it raises
    [ValueError].  Sum and difference return exactly when, on each axis,
    the two lengths are equal or one of them is 1.  An operand without an
    array, against an array that has an element, makes the three raise
    [TypeError]. *)
Theorem arithmetic_failures (a b : np.ndarray T) (w : _Matrix T) :
  (np.ncols a = np.nrows b ->
     exists d, _Matrix.__mul__ (mat a) (_Matrix.Mat (mat b)) = Ret (mat d) /\
               np.shape d = (np.nrows a, np.ncols b)) /\
  (np.ncols a <> np.nrows b ->
     _Matrix.__mul__ (mat a) (_Matrix.Mat (mat b)) = Raise ValueError) /\
  (forall r c,
     np.bdim (np.nrows a) (np.nrows b) = Some r ->
     np.bdim (np.ncols a) (np.ncols b) = Some c ->
     exists d e, _Matrix.__add__ (mat a) (mat b) = Ret (mat d) /\
                 _Matrix.__sub__ (mat a) (mat b) = Ret (mat e) /\
                 np.shape d = (r, c) /\ np.shape e = (r, c)) /\
  (np.bdim (np.nrows a) (np.nrows b) = None \/
   np.bdim (np.ncols a) (np.ncols b) = None ->
     _Matrix.__add__ (mat a) (mat b) = Raise ValueError /\
     _Matrix.__sub__ (mat a) (mat b) = Raise ValueError) /\
  (data w = None -> np.is_empty a = false -> np.is_empty b = false ->
     _Matrix.__mul__ w (_Matrix.Mat (mat b)) = Raise TypeError /\
     _Matrix.__mul__ (mat a) (_Matrix.Mat w) = Raise TypeError /\
     _Matrix.__add__ w (mat b) = Raise TypeError /\
     _Matrix.__add__ (mat a) w = Raise TypeError /\
     _Matrix.__sub__ w (mat b) = Raise TypeError /\
     _Matrix.__sub__ (mat a) w = Raise TypeError).
Proof.
  split; [|split; [|split; [|split]]].
  - intros E. eexists. rewrite mul_mat by exact E. now split.
  - intros E. rewrite mul_mat_cases.
    destruct (Nat.eqb_spec (np.ncols a) (np.nrows b)); [contradiction|reflexivity].
  - intros r c Er Ec.
    unfold _Matrix.__add__, _Matrix.__sub__, np.binop, np.broadcast.
    rewrite !data_mat, Er, Ec. do 2 eexists. repeat split.
  - intros E.
    unfold _Matrix.__add__, _Matrix.__sub__, np.binop, np.broadcast.
    rewrite !data_mat.
    destruct E as [-> | ->]; [now split|].
    destruct (np.bdim (np.nrows a) (np.nrows b)); now split.
  - intros E Ea Eb.
    unfold _Matrix.__mul__, _Matrix.__add__, _Matrix.__sub__, np.dot, np.binop,
      np.with_none.
    rewrite !data_mat, E, Ea, Eb. repeat split.
Qed.

(** Sum and difference do not require equal shapes: a 1x1 operand on
    the right of a column is combined with every row of the column. *)
Theorem column_minus_single (a b : np.ndarray T) :
  np.ncols a = 1 -> np.shape b = (1, 1) ->
  exists d e,
    _Matrix.__sub__ (mat a) (mat b) = Ret (mat d) /\
    _Matrix.__add__ (mat a) (mat b) = Ret (mat e) /\
    np.shape d = np.shape a /\ np.shape e = np.shape a /\
    forall i, i < np.nrows a ->
      np.get d i 0 = ssub (np.get a i 0) (np.get b 0 0) /\
      np.get e i 0 = sadd (np.get a i 0) (np.get b 0 0).
Proof.
  intros Ha [= Hb1 Hb2].
  assert (Er : np.bdim (np.nrows a) (np.nrows b) = Some (np.nrows a)).
  { unfold np.bdim. rewrite Hb1.
    destruct (Nat.eqb_spec (np.nrows a) 1) as [->|]; [reflexivity|].
    now rewrite Nat.eqb_refl. }
  assert (Ec : np.bdim (np.ncols a) (np.ncols b) = Some 1).
  { rewrite Ha, Hb2. reflexivity. }
  unfold _Matrix.__add__, _Matrix.__sub__, np.binop, np.broadcast.
  rewrite !data_mat, Er, Ec. do 2 eexists.
  split; [reflexivity|]. split; [reflexivity|].
  split; [unfold np.shape; simpl; now rewrite Ha|].
  split; [unfold np.shape; simpl; now rewrite Ha|].
  intros i Hi. rewrite !get_tab by lia.
  rewrite Ha, Hb1, Hb2. unfold np.bidx at 2 3 4 6 7 8. simpl.
  rewrite bidx_lt by assumption. now split.
Qed.

(** [M * s] for a number [s], on a matrix that holds a float array,
    keeps the shape and multiplies every element, on its right; without
    an array it raises [TypeError]. *)
Theorem scalar_product (a : np.ndarray T) (s : T) :
  (exists d, _Matrix.__mul__ (mat a) (_Matrix.Num s) = Ret (mat d) /\
             np.shape d = np.shape a /\
             forall i j, i < np.nrows a -> j < np.ncols a ->
               np.get d i j = smul (np.get a i j) s) /\
  _Matrix.__mul__ {| data := None |} (_Matrix.Num s) = Raise TypeError.
Proof.
  split; [|reflexivity]. eexists. split; [reflexivity|]. split; [reflexivity|].
  intros i j Hi Hj. unfold np.scale, np.copy. now rewrite get_tab.
Qed.

End Arithmetic.

(** A 2x3 array against a 3x1 and a 2x1 array. *)
Lemma arithmetic_failures_2x3 :
  let a := np.mk_nd 2 3 [[1%Q; 2%Q; 3%Q]; [4%Q; 5%Q; 6%Q]] in
  let b := np.mk_nd 3 1 [[1%Q]; [0%Q]; [1%Q]] in
  let c := np.mk_nd 2 1 [[1%Q]; [1%Q]] in
  (exists d, _Matrix.__mul__ (mat a) (_Matrix.Mat (mat b)) = Ret (mat d) /\
             np.shape d = (2, 1)) /\
  _Matrix.__mul__ (mat a) (_Matrix.Mat (mat c)) = Raise ValueError /\
  (exists d e, _Matrix.__add__ (mat a) (mat c) = Ret (mat d) /\
               _Matrix.__sub__ (mat a) (mat c) = Ret (mat e) /\
               np.shape d = (2, 3) /\ np.shape e = (2, 3)) /\
  (_Matrix.__add__ (mat a) (mat b) = Raise ValueError /\
   _Matrix.__sub__ (mat a) (mat b) = Raise ValueError) /\
  _Matrix.__mul__ {| data := None |} (_Matrix.Mat (mat b)) = Raise TypeError.
Proof.
  intros a b c.
  pose proof (@arithmetic_failures Q Scalar_Q a b {| data := None |}) as Hb.
  pose proof (@arithmetic_failures Q Scalar_Q a c {| data := None |}) as Hc.
  split; [exact (proj1 Hb eq_refl)|].
  split; [apply (proj1 (proj2 Hc)); discriminate|].
  split; [exact (proj1 (proj2 (proj2 Hc)) 2 3 eq_refl eq_refl)|].
  split; [apply (proj1 (proj2 (proj2 (proj2 Hb)))); now left|].
  exact (proj1 (proj2 (proj2 (proj2 (proj2 Hb))) eq_refl eq_refl eq_refl)).
Defined.

(** The column [(5, 7)] and the 1x1 array [[2]]. *)
Lemma column_minus_single_5_7 :
  let a := np.mk_nd 2 1 [[5%Q]; [7%Q]] in
  let b := np.mk_nd 1 1 [[2%Q]] in
  exists d e,
    _Matrix.__sub__ (mat a) (mat b) = Ret (mat d) /\
    _Matrix.__add__ (mat a) (mat b) = Ret (mat e) /\
    np.shape d = np.shape a /\ np.shape e = np.shape a /\
    forall i, i < 2 ->
      np.get d i 0 = (np.get a i 0 - 2)%Q /\
      np.get e i 0 = (np.get a i 0 + 2)%Q.
Proof.
  intros a b.
  apply (@column_minus_single Q Scalar_Q a b); reflexivity.
Defined.

(** ** Construction, element access and inversion *)

Section Containers.
Context {T : Type} {ST : Scalar T} {LA : np.LinAlg T}.

(** [_Matrix(r, c)] holds the [r]x[c] array of zeros when both
    dimensions are positive; otherwise it holds no array, and its
    transpose, its first column and its elements cannot be taken.
    [_Vector(n)] is [_Matrix(n, 1)]. *)
Theorem zero_matrix (r c : Z) :
  ((0 < r)%Z -> (0 < c)%Z ->
     exists a, _Matrix.__init__ r c = mat a /\
               np.shape a = (Z.to_nat r, Z.to_nat c) /\
               forall i j, i < Z.to_nat r -> j < Z.to_nat c ->
                 np.get a i j = szero) /\
  ((r <= 0)%Z \/ (c <= 0)%Z ->
     data (_Matrix.__init__ (T := T) r c) = None /\
     _Matrix.transpose (_Matrix.__init__ (T := T) r c) = Raise AttributeError /\
     _Matrix.asarray (_Matrix.__init__ (T := T) r c) = Raise TypeError /\
     forall k, _Matrix.__getitem__ (_Matrix.__init__ (T := T) r c) k
               = Raise TypeError) /\
  _Vector.__init__ (T := T) r = _Matrix.__init__ r 1.
Proof.
  unfold _Matrix.__init__, _Vector.__init__. split; [|split].
  - intros Hr Hc.
    replace ((0 <? r)%Z && (0 <? c)%Z) with true
      by (symmetry; apply andb_true_iff; split; apply Z.ltb_lt; lia).
    eexists. split; [reflexivity|]. split; [reflexivity|].
    intros i j Hi Hj. unfold np.zeros. now rewrite get_tab.
  - intros Hrc.
    replace ((0 <? r)%Z && (0 <? c)%Z) with false.
    + repeat split.
    + symmetry. apply andb_false_iff.
      destruct Hrc; [left | right]; apply Z.ltb_ge; lia.
  - now rewrite andb_true_r.
Qed.

(** Writing an element and reading it back: with both indices
    accepted, [M[i, j] = v] returns, [M[i, j]] then reads [v], the shape
    is kept and no other element changes. *)
Theorem setitem_getitem (a : np.ndarray T) (i j : Z) (v : T) :
  np.key_in_range a (np.KPair i j) = true ->
  exists a',
    _Matrix.__setitem__ (mat a) (np.KPair i j) v = Ret (mat a') /\
    _Matrix.__getitem__ (mat a') (np.KPair i j) = Ret (np.IScalar v) /\
    np.shape a' = np.shape a /\
    forall p q, p < np.nrows a -> q < np.ncols a ->
      (p, q) <> (np.position (np.nrows a) i, np.position (np.ncols a) j) ->
      np.get a' p q = np.get a p q.
Proof.
  intros E. simpl in E. apply andb_true_iff in E. destruct E as [Ei Ej].
  assert (Hi : np.position (np.nrows a) i < np.nrows a).
  { unfold np.in_range in Ei. apply andb_true_iff in Ei.
    destruct Ei as [E1 E2]. apply Z.leb_le in E1. apply Z.ltb_lt in E2.
    unfold np.position. destruct (Z.ltb_spec i 0); lia. }
  assert (Hj : np.position (np.ncols a) j < np.ncols a).
  { unfold np.in_range in Ej. apply andb_true_iff in Ej.
    destruct Ej as [E1 E2]. apply Z.leb_le in E1. apply Z.ltb_lt in E2.
    unfold np.position. destruct (Z.ltb_spec j 0); lia. }
  unfold _Matrix.__setitem__, _Matrix.__getitem__; rewrite data_mat.
  unfold np.setitem. rewrite !norm_index_spec, Ei, Ej. cbn [rbind].
  eexists. split; [reflexivity|]. rewrite data_mat.
  unfold np.getitem. cbn [np.nrows np.ncols np.tab].
  rewrite !norm_index_spec, Ei, Ej. cbn [rbind].
  split.
  - rewrite get_tab by assumption. now rewrite !Nat.eqb_refl.
  - split; [reflexivity|]. intros p q Hp Hq Hne.
    rewrite get_tab by assumption.
    destruct (Nat.eqb_spec p (np.position (np.nrows a) i)) as [->|]; [|reflexivity].
    destruct (Nat.eqb_spec q (np.position (np.ncols a) j)) as [->|]; [|reflexivity].
    contradiction.
Qed.

(** With one index, a write fills the whole row: [M[i] = v] then
    [M[i]] reads a row of [v]s, and the other rows are unchanged. *)
Theorem setitem_row (a : np.ndarray T) (i : Z) (v : T) :
  np.key_in_range a (np.KInt i) = true ->
  exists a',
    _Matrix.__setitem__ (mat a) (np.KInt i) v = Ret (mat a') /\
    _Matrix.__getitem__ (mat a') (np.KInt i)
    = Ret (np.IRow (repeat v (np.ncols a))) /\
    np.shape a' = np.shape a /\
    forall p q, p < np.nrows a -> q < np.ncols a ->
      p <> np.position (np.nrows a) i -> np.get a' p q = np.get a p q.
Proof.
  intros Ei. simpl in Ei.
  assert (Hi : np.position (np.nrows a) i < np.nrows a).
  { unfold np.in_range in Ei. apply andb_true_iff in Ei.
    destruct Ei as [E1 E2]. apply Z.leb_le in E1. apply Z.ltb_lt in E2.
    unfold np.position. destruct (Z.ltb_spec i 0); lia. }
  unfold _Matrix.__setitem__, _Matrix.__getitem__; rewrite data_mat.
  unfold np.setitem. rewrite !norm_index_spec, Ei. cbn [rbind].
  eexists. split; [reflexivity|]. rewrite data_mat.
  unfold np.getitem. cbn [np.nrows np.ncols np.tab].
  rewrite !norm_index_spec, Ei. cbn [rbind].
  split.
  - do 2 f_equal.
    apply nth_ext with (d := v) (d' := v).
    + now rewrite length_map, length_seq, repeat_length.
    + intros q Hq. rewrite length_map, length_seq in Hq.
      rewrite nth_repeat.
      rewrite (nth_tabulate _ v Hq).
      rewrite get_tab by assumption. now rewrite Nat.eqb_refl.
  - split; [reflexivity|]. intros p q Hp Hq Hne.
    rewrite get_tab by assumption.
    destruct (Nat.eqb_spec p (np.position (np.nrows a) i)); [contradiction|reflexivity].
Qed.

(** [asarray] returns the first column only, whatever the number of
    columns: one element per row.  It raises [IndexError] on an array
    with no column. *)
Theorem asarray_first_column (a : np.ndarray T) :
  (0 < np.ncols a ->
     exists l, _Matrix.asarray (mat a) = Ret l /\
               length l = np.nrows a /\
               forall i, i < np.nrows a -> nth i l szero = np.get a i 0) /\
  (np.ncols a = 0 -> _Matrix.asarray (mat a) = Raise IndexError).
Proof.
  split.
  - intros Hc. exists (np.flat a). split; [now apply asarray_mat|].
    split; [apply length_flat|].
    intros i Hi. unfold np.flat.
    now rewrite (nth_tabulate (fun i => np.get a i 0) szero Hi).
  - intros Hc. unfold _Matrix.asarray; rewrite data_mat.
    unfold np.column0. now rewrite norm_index_spec, Hc.
Qed.

(** [invert] has two outcomes.  Either [np.linalg.inv] returned: the
    result has the shape of the matrix and nothing is printed.  Or it
    did not (also when the matrix holds no array): two lines are
    printed and [SystemExit(0)] is raised.  No other exception leaves
    [invert]. *)
Theorem invert_outcomes (S : _Matrix T) (out : EKF.log T) :
  (exists a b, data S = Some a /\ np.linalg_inv a = Some b /\
               np.shape b = np.shape a /\
               _Matrix.invert S out = (Ret (mat b), out)) \/
  ((data S = None \/ exists a, data S = Some a /\ np.linalg_inv a = None) /\
   _Matrix.invert S out
   = (Raise (SystemExit 0), out ++ [PrintData (data S); PrintExn LinAlgError])).
Proof.
  unfold _Matrix.invert. destruct (data S) as [a|]; [|right; split; auto].
  destruct (np.linalg_inv a) as [b|] eqn:E.
  - left. exists a, b. repeat split; auto. now apply np.linalg_inv_shape.
  - right. split; [right; now exists a | reflexivity].
Qed.

End Containers.

(** [_Matrix(2, 3)] and [_Matrix(0, 3)]. *)
Lemma zero_matrix_2x3 :
  (exists a, _Matrix.__init__ 2 3 = mat a /\
             np.shape a = (2, 3) /\
             forall i j, i < 2 -> j < 3 -> np.get a i j = 0%Q) /\
  (data (_Matrix.__init__ (T := Q) 0 3) = None /\
   _Matrix.transpose (_Matrix.__init__ (T := Q) 0 3) = Raise AttributeError /\
   _Matrix.asarray (_Matrix.__init__ (T := Q) 0 3) = Raise TypeError /\
   forall k, _Matrix.__getitem__ (_Matrix.__init__ (T := Q) 0 3) k
             = Raise TypeError).
Proof.
  split.
  - apply (proj1 (@zero_matrix Q Scalar_Q 2%Z 3%Z)); lia.
  - apply (proj1 (proj2 (@zero_matrix Q Scalar_Q 0%Z 3%Z))). left. lia.
Defined.

(** Element [(-1, 0)] of a 2x2 array. *)
Lemma setitem_getitem_2x2 :
  let a := np.mk_nd 2 2 [[1%Q; 2%Q]; [3%Q; 4%Q]] in
  exists a',
    _Matrix.__setitem__ (mat a) (np.KPair (-1) 0) 9%Q = Ret (mat a') /\
    _Matrix.__getitem__ (mat a') (np.KPair (-1) 0) = Ret (np.IScalar 9%Q) /\
    np.shape a' = np.shape a /\
    forall p q, p < 2 -> q < 2 -> (p, q) <> (1, 0) ->
      np.get a' p q = np.get a p q.
Proof.
  intros a.
  apply (@setitem_getitem Q Scalar_Q a (-1)%Z 0%Z 9%Q). reflexivity.
Defined.

(** Row [1] of a 2x2 array. *)
Lemma setitem_row_2x2 :
  let a := np.mk_nd 2 2 [[1%Q; 2%Q]; [3%Q; 4%Q]] in
  exists a',
    _Matrix.__setitem__ (mat a) (np.KInt 1) 9%Q = Ret (mat a') /\
    _Matrix.__getitem__ (mat a') (np.KInt 1) = Ret (np.IRow [9%Q; 9%Q]) /\
    np.shape a' = np.shape a /\
    forall p q, p < 2 -> q < 2 -> p <> 1 -> np.get a' p q = np.get a p q.
Proof.
  intros a.
  apply (@setitem_row Q Scalar_Q a 1%Z 9%Q). reflexivity.
Defined.

(** A 2x2 array, and a 2x0 one. *)
Lemma asarray_first_column_2x2 :
  (exists l, _Matrix.asarray (mat (np.mk_nd 2 2 [[1%Q; 2%Q]; [3%Q; 4%Q]])) = Ret l /\
             length l = 2 /\
             forall i, i < 2 ->
               nth i l 0%Q = np.get (np.mk_nd 2 2 [[1%Q; 2%Q]; [3%Q; 4%Q]]) i 0) /\
  _Matrix.asarray (mat (np.mk_nd (T := Q) 2 0 [[]; []])) = Raise IndexError.
Proof.
  split.
  - apply (proj1 (@asarray_first_column Q Scalar_Q
                    (np.mk_nd 2 2 [[1%Q; 2%Q]; [3%Q; 4%Q]]))).
    simpl. lia.
  - apply (proj2 (@asarray_first_column Q Scalar_Q (np.mk_nd 2 0 [[]; []]))).
    reflexivity.
Defined.

(** * Further properties of the filter *)

(** Following a step that returns, one operation after the other. *)
Ltac returning :=
  repeat (glue;
          match goal with
          | |- context [match ?r with Ret _ => _ | Raise _ => _ end] =>
              destruct r eqn:?; [|discriminate]
          end).

(** Splitting on the operations of a step, in their order. *)
Ltac outcomes :=
  repeat match goal with
  | |- context [match ?r with Ret _ => _ | Raise _ => _ end] => destruct r
  | |- context [match ?r with Some _ => _ | None => _ end] => destruct r
  | |- context [let (_, _) := ?r in _] => destruct r
  end.

Section StepFacts.
Context {T : Type} {ST : Scalar T} {LA : np.LinAlg T}.
Variable cls : EKF.subclass T.

(** [step] writes [P_pre] before it reads it: what a step returns or
    raises, and the [x], the [P_post] and the log it leaves, do not
    depend on the [P_pre] it starts from; and if the step returns, the
    whole instance it leaves does not.  So the first step, which finds
    [P_pre = None], runs like any other. *)
Theorem step_ignores_P_pre (pp pp' : option (_Matrix T))
  (x P F H Q R I : _Matrix T) (z : list T) (out : EKF.log T) :
  let r1 := EKF.step cls z
    ({| EKF.P_pre := pp; EKF.x := x; EKF.P_post := P; EKF.F := F;
        EKF.H := H; EKF.Q := Q; EKF.R := R; EKF.I := I |}, out) in
  let r2 := EKF.step cls z
    ({| EKF.P_pre := pp'; EKF.x := x; EKF.P_post := P; EKF.F := F;
        EKF.H := H; EKF.Q := Q; EKF.R := R; EKF.I := I |}, out) in
  fst r1 = fst r2 /\
  EKF.x (fst (snd r1)) = EKF.x (fst (snd r2)) /\
  EKF.P_post (fst (snd r1)) = EKF.P_post (fst (snd r2)) /\
  snd (snd r1) = snd (snd r2) /\
  (forall v, fst r1 = Ret v -> snd r1 = snd r2).
Proof.
  cbv zeta. unfold EKF.step. glue.
  outcomes; glue; repeat split; try reflexivity; intros; discriminate.
Qed.


(** A class that defines [f] but leaves [h] abstract: the step raises
    [NotImplementedError] at the call of [h], in the update phase; the
    predict phase has run by then, so [x] holds [f(x)] and [P_pre],
    [P_post] hold [F P_post Ft + Q]. *)
Theorem step_missing_h (n m : nat) (o : EKF.t T) (out : EKF.log T)
  (z : list T) (ff : np.pydata T -> np.pydata T) (aSi : np.ndarray T) :
  EKF.shaped n m o ->
  EKF.f cls = Some ff -> EKF.h cls = None ->
  let aPpre :=
    EKF.predict_cov (arr (EKF.F o)) (arr (EKF.P_post o)) (arr (EKF.Q o)) in
  let aS := EKF.innovation_cov (arr (EKF.H o)) aPpre (arr (EKF.R o)) in
  np.linalg_inv aS = Some aSi ->
  EKF.step cls z (o, out)
  = (Raise NotImplementedError,
     (EKF.predicted o (ff (data (EKF.x o))),
      out ++ [Call m_f (data (EKF.x o)); Call m_h (ff (data (EKF.x o)))])).
Proof.
  intros So Ef Eh aPpre aS Einv.
  destruct (shaped_arrays So)
    as (pp & ax & aP & aF & aH & aQ & aR & aI & -> &
        [] & [] & [] & [] & [] & [] & []).
  pose proof Einv as Si. apply np.linalg_inv_shape in Si.
  unfold np.shape in Si. injection Si as Si1 Si2.
  subst aPpre aS. unfold EKF.predicted.
  simpl EKF.x in *; simpl EKF.F in *; simpl EKF.H in *;
    simpl EKF.P_post in *; simpl EKF.Q in *; simpl EKF.R in *.
  unfold arr in *; rewrite ?data_mat in *. simpl in Si1, Si2.
  unfold EKF.innovation_cov, EKF.predict_cov in *.
  unfold EKF.step. glue. rewrite Ef, ?data_mat.
  run. erewrite invert_returns by exact Einv. run.
  destruct (fromTuple_returns z) as (zv & ->). glue.
  rewrite Eh. glue. rewrite <- app_assoc. reflexivity.
Qed.

Lemma sub_single (m : nat) (z0 : T) (ahx : np.ndarray T) :
  0 < m -> np.shape ahx = (m, 1) ->
  _Matrix.__sub__ (mat (np.column [z0])) (mat ahx)
  = Ret (mat (np.zip ssub (np.column (repeat z0 m)) ahx)).
Proof.
  intros Hm [= H1 H2].
  unfold _Matrix.__sub__, np.binop, np.broadcast. rewrite !data_mat.
  change (np.nrows (np.column [z0])) with 1.
  change (np.ncols (np.column [z0])) with 1.
  rewrite H1, H2.
  assert (E : np.bdim 1 m = Some m).
  { unfold np.bdim. destruct (Nat.eqb_spec 1 m) as [<-|]; reflexivity. }
  rewrite E, bdim_same. cbn [rbind]. f_equal. unfold mat. do 2 f_equal.
  unfold np.zip. change (np.ncols (np.column (repeat z0 m))) with 1.
  change (np.nrows (np.column (repeat z0 m))) with (length (repeat z0 m)).
  rewrite repeat_length.
  apply tab_ext. intros i j Hi Hj.
  assert (j = 0) by lia. subst j.
  rewrite (bidx_lt Hi). change (np.bidx 1 i) with 0. change (np.bidx 1 0) with 0.
  f_equal. unfold np.column.
  rewrite get_tab by (rewrite ?repeat_length; simpl; lia).
  rewrite get_tab by (rewrite ?repeat_length; simpl; lia).
  rewrite (nth_indep (repeat z0 m) szero z0) by (now rewrite repeat_length).
  now rewrite nth_repeat.
Qed.

(** A measurement of one element is not refused when [m > 1]: the step
    uses that element for each of the [m] observables, and does exactly
    what it does on the measurement that repeats it [m] times. *)
Theorem step_single_measurement (n m : nat) (o : EKF.t T) (out : EKF.log T)
  (z0 : T) (ff hh : np.pydata T -> np.pydata T) (ax1 ahx aSi : np.ndarray T) :
  EKF.shaped n m o ->
  EKF.f cls = Some ff -> EKF.h cls = Some hh ->
  ff (data (EKF.x o)) = Some ax1 -> np.shape ax1 = (n, 1) ->
  hh (Some ax1) = Some ahx -> np.shape ahx = (m, 1) ->
  0 < m ->
  let aPpre :=
    EKF.predict_cov (arr (EKF.F o)) (arr (EKF.P_post o)) (arr (EKF.Q o)) in
  let aS := EKF.innovation_cov (arr (EKF.H o)) aPpre (arr (EKF.R o)) in
  np.linalg_inv aS = Some aSi ->
  (exists v s', EKF.step cls [z0] (o, out) = (Ret v, s')) /\
  EKF.step cls [z0] (o, out) = EKF.step cls (repeat z0 m) (o, out).
Proof.
  intros So Ef Eh Efx Sx1 Ehx Shx Hm aPpre aS Einv.
  destruct (@step_returns T ST LA cls n m o out (repeat z0 m) ff hh ax1 ahx aSi
              So Ef Eh Efx Sx1 Ehx Shx (repeat_length z0 m) Hm Einv) as [E2 _].
  assert (E1 : EKF.step cls [z0] (o, out) = EKF.step cls (repeat z0 m) (o, out)).
  2:{ split; [|exact E1]. rewrite E1, E2. now do 2 eexists. }
  rewrite E2. clear E2.
  destruct (shaped_arrays So)
    as (pp & ax & aP & aF & aH & aQ & aR & aI & -> &
        [] & [] & [] & [] & [] & [] & []).
  pose proof Einv as Si. apply np.linalg_inv_shape in Si.
  pose proof (sub_single z0 Hm Shx) as Esub.
  unfold np.shape in Sx1, Shx, Si.
  injection Sx1 as ? ?. injection Shx as ? ?. injection Si as Si1 Si2.
  subst aPpre aS. simpl EKF.x in *; simpl EKF.F in *; simpl EKF.H in *;
    simpl EKF.P_post in *; simpl EKF.Q in *; simpl EKF.R in *; simpl EKF.I in *.
  unfold arr in *; rewrite ?data_mat in *. simpl in Si1, Si2.
  unfold EKF.innovation_cov, EKF.predict_cov, EKF.gain, EKF.update_state,
    EKF.update_cov in *.
  unfold EKF.step. glue. rewrite Ef, ?data_mat, Efx.
  run. erewrite invert_returns by exact Einv. run.
  rewrite fromTuple_column by discriminate.
  glue. rewrite Eh, ?data_mat, Ehx. glue. rewrite fromData_Some, Esub.
  pose proof (repeat_length z0 m) as Hz.
  run.
  rewrite asarray_mat by (simpl; lia).
  rewrite <- app_assoc. reflexivity.
Qed.

End StepFacts.

(** ** The constructor outside its contract, and the Jacobians over a run *)

Section ConstructorFacts.
Context {T : Type} {ST : Scalar T} {LA : np.LinAlg T}.
Variable cls : EKF.subclass T.

(** The constructor checks no dimension itself.  A negative [n] makes
    the first [eye(n)] raise [ValueError], before any method is called;
    a negative [m] makes [eye(m)] raise it, after [getF] and [getH] have
    been called; [n = 0] is accepted, and leaves an [x] that holds no
    array. *)
Theorem init_dimensions (n m : Z) (pval qval rval : T)
  (gF gH : _Matrix T -> np.pydata T) (out : EKF.log T) :
  EKF.getF cls = Some gF -> EKF.getH cls = Some gH ->
  ((n < 0)%Z ->
     EKF.__init__ cls n m pval qval rval out = (Raise ValueError, out)) /\
  ((0 <= n)%Z -> (m < 0)%Z ->
     EKF.__init__ cls n m pval qval rval out
     = (Raise ValueError,
        out ++ [Call m_getF (data (_Vector.__init__ (T := T) n));
                Call m_getH (data (_Vector.__init__ (T := T) n))])) /\
  (n = 0%Z -> (0 <= m)%Z ->
     exists o out',
       EKF.__init__ cls n m pval qval rval out = (Ret o, out') /\
       data (EKF.x o) = None /\
       np.shape_of (data (EKF.P_post o)) = Some (0, 0)).
Proof.
  intros EF EH. split; [|split].
  - intros Hn. unfold EKF.__init__, mbind, lift.
    unfold _Matrix.eye at 1, np.eye. simpl.
    now replace ((n <? 0)%Z || (n <? 0)%Z) with true
      by (symmetry; apply orb_true_iff; left; apply Z.ltb_lt; lia).
  - intros Hn Hm. unfold EKF.__init__, mbind, lift, mret, EKF.call.
    rewrite !eye_default by lia. rewrite EF, EH.
    unfold _Matrix.eye, np.eye. simpl.
    replace ((m <? 0)%Z || (m <? 0)%Z) with true
      by (symmetry; apply orb_true_iff; left; apply Z.ltb_lt; lia).
    simpl. now rewrite <- app_assoc.
  - intros -> Hm. unfold EKF.__init__, mbind, lift, mret, EKF.call.
    rewrite !eye_default by lia. rewrite EF, EH. simpl.
    do 2 eexists. repeat split.
Qed.

Lemma reachable_framed (s0 s : EKF.state T) :
  EKF.reachable cls s0 s -> EKF.framed s0 s.
Proof.
  intros Hr. induction Hr as [|s z v s' _ IH E]; [apply framed_refl|].
  eapply framed_trans; [exact IH|].
  pose proof (keeps_step cls z s) as K. now rewrite E in K.
Qed.


End ConstructorFacts.

(** ** The covariance does not depend on the measurements *)

Section Covariance.
Context {T : Type} {ST : Scalar T} {LA : np.LinAlg T}.
Variable cls : EKF.subclass T.

(** What a step does to the covariance is decided by [P_post], [F],
    [H], [Q], [R] and [I] alone: two steps from instances that agree on
    these, on different states and different measurements of length [m],
    both return and leave the same [P_pre] and the same [P_post]. *)
Theorem covariance_ignores_measurements (n m : nat) (o1 o2 : EKF.t T)
  (out1 out2 : EKF.log T) (z1 z2 : list T) (aSi : np.ndarray T) :
  EKF.shaped n m o1 -> EKF.shaped n m o2 ->
  EKF.model_shaped cls n m ->
  EKF.P_post o1 = EKF.P_post o2 ->
  EKF.F o1 = EKF.F o2 -> EKF.H o1 = EKF.H o2 -> EKF.Q o1 = EKF.Q o2 ->
  EKF.R o1 = EKF.R o2 -> EKF.I o1 = EKF.I o2 ->
  length z1 = m -> length z2 = m -> 0 < m ->
  np.linalg_inv
    (EKF.innovation_cov (arr (EKF.H o1))
       (EKF.predict_cov (arr (EKF.F o1)) (arr (EKF.P_post o1)) (arr (EKF.Q o1)))
       (arr (EKF.R o1))) = Some aSi ->
  exists v1 s1 v2 s2,
    EKF.step cls z1 (o1, out1) = (Ret v1, s1) /\
    EKF.step cls z2 (o2, out2) = (Ret v2, s2) /\
    EKF.P_pre (fst s1) = EKF.P_pre (fst s2) /\
    EKF.P_post (fst s1) = EKF.P_post (fst s2).
Proof.
  intros S1 S2 ((ff & Ef & Cf) & _ & (hh & Eh & Ch) & _)
         EP EF EH EQ ER EI L1 L2 Hm Einv.
  pose proof S1 as (Sx1 & _). pose proof S2 as (Sx2 & _).
  destruct (shape_of_Some _ (Cf _ Sx1)) as (a1 & Ea1 & Ha1 & Ha1').
  destruct (shape_of_Some _ (Cf _ Sx2)) as (a2 & Ea2 & Ha2 & Ha2').
  destruct (shape_of_Some _ (Ch (Some a1) (shape_of_mat a1 Ha1 Ha1')))
    as (b1 & Eb1 & Hb1 & Hb1').
  destruct (shape_of_Some _ (Ch (Some a2) (shape_of_mat a2 Ha2 Ha2')))
    as (b2 & Eb2 & Hb2 & Hb2').
  assert (Sa1 : np.shape a1 = (n, 1)) by (unfold np.shape; congruence).
  assert (Sa2 : np.shape a2 = (n, 1)) by (unfold np.shape; congruence).
  assert (Sb1 : np.shape b1 = (m, 1)) by (unfold np.shape; congruence).
  assert (Sb2 : np.shape b2 = (m, 1)) by (unfold np.shape; congruence).
  destruct (@step_returns T ST LA cls n m o1 out1 z1 ff hh a1 b1 aSi
              S1 Ef Eh Ea1 Sa1 Eb1 Sb1 L1 Hm Einv) as [E1 _].
  rewrite EP, EF, EH, EQ, ER in Einv.
  destruct (@step_returns T ST LA cls n m o2 out2 z2 ff hh a2 b2 aSi
              S2 Ef Eh Ea2 Sa2 Eb2 Sb2 L2 Hm Einv) as [E2 _].
  rewrite E1, E2. do 4 eexists.
  split; [reflexivity|]. split; [reflexivity|].
  cbn [fst EKF.P_pre EKF.P_post].
  now rewrite EP, EF, EH, EQ, EI.
Qed.

End Covariance.

(** ** The further properties, on concrete filters *)

Section FurtherRuns.
Local Open Scope Q_scope.


(** A scalar model with [f] the identity and no [h]. *)
Lemma step_missing_h_scalar :
  let cls := {| EKF.f := Some (fun d : np.pydata Q => d);
                EKF.getF := Some (fun _ => Some Scalar1.one);
                EKF.h := None;
                EKF.getH := Some (fun _ => Some Scalar1.one) |} in
  let o := fst (Scalar1.start 1 1 1) in
  EKF.step cls [5] (o, [])
  = (Raise NotImplementedError,
     (EKF.predicted o (data (EKF.x o)),
      [] ++ [Call m_f (data (EKF.x o)); Call m_h (data (EKF.x o))])).
Proof.
  intros cls o.
  apply (@step_missing_h Q Scalar_Q LinAlg_Q cls 1 1 o [] [5] (fun d => d)
           (np.mk_nd 1 1 [[1 # 3]]));
    first [ reflexivity | repeat split ].
Defined.

(** The filter with three states and two observables, on the
    measurement [(5,)]. *)
Lemma step_single_measurement_3_2 :
  (exists v s', EKF.step Filter32.model [5] Filter32.start = (Ret v, s')) /\
  EKF.step Filter32.model [5] Filter32.start
  = EKF.step Filter32.model (repeat 5 2) Filter32.start.
Proof.
  apply (@step_single_measurement Q Scalar_Q LinAlg_Q Filter32.model 3 2
           (fst Filter32.start) (snd Filter32.start) 5
           (option_map (fun a =>
              np.tab (np.nrows a) (np.ncols a) (fun i j => np.get a i j + 1)))
           (option_map (fun a => np.tab 2 1 (fun i j => np.get a i j)))
           (np.mk_nd 3 1 [[1]; [1]; [1]]) (np.mk_nd 2 1 [[1]; [1]])
           (np.mk_nd 2 2 [[1 # 3; 0]; [0; 1 # 3]]));
    first [ reflexivity | lia | repeat split ].
Defined.

(** The scalar model built with [n = -1], with [m = -1], and with
    [n = 0]. *)
Lemma init_dimensions_scalar :
  EKF.__init__ Scalar1.model (-1) 1 1 1 1 [] = (Raise ValueError, []) /\
  EKF.__init__ Scalar1.model 1 (-1) 1 1 1 []
  = (Raise ValueError,
     [] ++ [Call m_getF (data (_Vector.__init__ (T := Q) 1));
            Call m_getH (data (_Vector.__init__ (T := Q) 1))]) /\
  exists o out',
    EKF.__init__ Scalar1.model 0 1 1 1 1 [] = (Ret o, out') /\
    data (EKF.x o) = None /\
    np.shape_of (data (EKF.P_post o)) = Some (0%nat, 0%nat).
Proof.
  split; [|split].
  - apply (proj1 (@init_dimensions Q Scalar_Q Scalar1.model (-1)%Z 1%Z 1 1 1
                    (fun _ => Some Scalar1.one) (fun _ => Some Scalar1.one) []
                    eq_refl eq_refl)).
    lia.
  - apply (proj1 (proj2 (@init_dimensions Q Scalar_Q Scalar1.model 1%Z (-1)%Z 1 1 1
                    (fun _ => Some Scalar1.one) (fun _ => Some Scalar1.one) []
                    eq_refl eq_refl))); lia.
  - apply (proj2 (proj2 (@init_dimensions Q Scalar_Q Scalar1.model 0%Z 1%Z 1 1 1
                    (fun _ => Some Scalar1.one) (fun _ => Some Scalar1.one) []
                    eq_refl eq_refl))); [reflexivity | lia].
Defined.


(** The class that defines the Jacobians only, under Python 2. *)
Lemma python2_refuses_jacobians_only :
  EKF.new Scalar1.jacobians_only Python2 1 1 1 1 1 [] = (Raise TypeError, []).
Proof.
  apply (@python2_refuses_abstract Q Scalar_Q Scalar1.jacobians_only). reflexivity.
Defined.

(** A class that defines everything but [getH], under Python 3. *)
Lemma python3_missing_getH :
  exists out',
    EKF.new {| EKF.f := Some (fun d : np.pydata Q => d);
               EKF.getF := Some (fun _ => Some Scalar1.one);
               EKF.h := Some (fun d => d);
               EKF.getH := None |} Python3 1 1 1 1 1 []
    = (Raise NotImplementedError, out').
Proof.
  apply (@python3_missing_jacobian Q Scalar_Q); [lia | now right].
Defined.

(** The class that defines the Jacobians only, at its first step. *)
Lemma step_missing_f_jacobians_only :
  EKF.step Scalar1.jacobians_only [5] (Scalar1.start 1 1 1)
  = (Raise NotImplementedError,
     (fst (Scalar1.start 1 1 1),
      snd (Scalar1.start 1 1 1)
      ++ [Call m_f (data (EKF.x (fst (Scalar1.start 1 1 1))))])).
Proof.
  apply (@step_missing_f Q Scalar_Q LinAlg_Q Scalar1.jacobians_only [5]
           (fst (Scalar1.start 1 1 1)) (snd (Scalar1.start 1 1 1))).
  reflexivity.
Defined.

(** The scalar filter from the states 0 and 5, on the measurements 1
    and 7. *)
Lemma covariance_ignores_measurements_scalar :
  let o1 := Scalar1.instance None 0 (1 # 10) 0 (1 # 10) in
  let o2 := Scalar1.instance None 5 (1 # 10) 0 (1 # 10) in
  exists v1 s1 v2 s2,
    EKF.step Scalar1.model [1] (o1, []) = (Ret v1, s1) /\
    EKF.step Scalar1.model [7] (o2, []) = (Ret v2, s2) /\
    EKF.P_pre (fst s1) = EKF.P_pre (fst s2) /\
    EKF.P_post (fst s1) = EKF.P_post (fst s2).
Proof.
  intros o1 o2.
  apply (@covariance_ignores_measurements Q Scalar_Q LinAlg_Q Scalar1.model 1 1
           o1 o2 [] [] [1] [7] (np.mk_nd 1 1 [[5]]));
    try reflexivity; try lia; try (repeat split; fail).
  repeat split; eexists; (split; [reflexivity|]); intros d Hd;
    first [exact Hd | reflexivity].
Defined.

End FurtherRuns.
